(** * FSAE ruleset scraper: the change-detection cycle of [bot/cogs/scraper.py]

    A shallow embedding of [ScraperCog]: the snapshot store ([save_data],
    [load_data]), the metadata enricher ([get_metadata]), the listing parser
    ([scrape_pdfs], from the BeautifulSoup tree on), and the periodic cycle
    [check_for_updates] with its diff loop and announcements.

    Python values are modelled as the code has them: a [str] is a sequence of
    code points, a record is the dict with keys [title], [url],
    [document_id], [filename], the two lookup dicts are finite maps, and
    exceptions are explicit results. *)

From Stdlib Require Import NArith ZArith String Ascii List Lia.
From stdpp Require Import base option list gmap.

Local Open Scope N_scope.

(** ** Text *)

(** A Python [str]: a sequence of Unicode code points. *)
Abbreviation str := (list N).

(** Source literals; every literal of the program is ASCII. *)
Definition py (s : string) : str :=
  List.map N_of_ascii (list_ascii_of_string s).


(** [str.isspace] on one code point: what [str.strip()] removes. *)
Definition isspace (c : N) : bool :=
  ((0x09 <=? c) && (c <=? 0x0D)) || ((0x1C <=? c) && (c <=? 0x20))
  || (c =? 0x85) || (c =? 0xA0) || (c =? 0x1680)
  || ((0x2000 <=? c) && (c <=? 0x200A))
  || (c =? 0x2028) || (c =? 0x2029) || (c =? 0x202F) || (c =? 0x205F)
  || (c =? 0x3000).

Fixpoint lstrip (s : str) : str :=
  match s with
  | c :: s' => if isspace c then lstrip s' else s
  | [] => []
  end.

Definition rstrip (s : str) : str := rev (lstrip (rev s)).

(** [s.strip()] *)
Definition strip (s : str) : str := rstrip (lstrip s).

(** [s.startswith(prefix)] *)
Fixpoint startswith (prefix s : str) : bool :=
  match prefix, s with
  | [], _ => true
  | p :: prefix', c :: s' => (p =? c) && startswith prefix' s'
  | _ :: _, [] => false
  end.

(** [sub in s] for two strings. *)
Fixpoint contains (sub s : str) : bool :=
  startswith sub s ||
  match s with
  | [] => false
  | _ :: s' => contains sub s'
  end.

(** [s.split(sep)] for a non-empty [sep]: the separators are found left to
    right without overlap. [skip] counts the code points of a separator
    still to pass over, [cur] is the piece being read, reversed. *)
Fixpoint split_from (sep : str) (skip : nat) (cur s : str) : list str :=
  match s with
  | [] => [rev cur]
  | c :: s' =>
      match skip with
      | S k => split_from sep k cur s'
      | O =>
          if startswith sep s
          then rev cur :: split_from sep (length sep - 1) [] s'
          else split_from sep 0 (c :: cur) s'
      end
  end.

Definition split (sep s : str) : list str := split_from sep 0 [] s.

(** [sep.join(parts)] *)
Fixpoint join (sep : str) (parts : list str) : str :=
  match parts with
  | [] => []
  | [p] => p
  | p :: parts' => p ++ sep ++ join sep parts'
  end.

(** The decimal digits of a natural number, most significant first. *)
Fixpoint digits_of_uint (d : Decimal.uint) : str :=
  match d with
  | Decimal.Nil => []
  | Decimal.D0 d' => 48 :: digits_of_uint d'
  | Decimal.D1 d' => 49 :: digits_of_uint d'
  | Decimal.D2 d' => 50 :: digits_of_uint d'
  | Decimal.D3 d' => 51 :: digits_of_uint d'
  | Decimal.D4 d' => 52 :: digits_of_uint d'
  | Decimal.D5 d' => 53 :: digits_of_uint d'
  | Decimal.D6 d' => 54 :: digits_of_uint d'
  | Decimal.D7 d' => 55 :: digits_of_uint d'
  | Decimal.D8 d' => 56 :: digits_of_uint d'
  | Decimal.D9 d' => 57 :: digits_of_uint d'
  end.

(** [str(n)] for an [int], as an f-string renders it. *)
Definition str_of_int (n : Z) : str :=
  match n with
  | Z0 => py "0"
  | Zpos p => digits_of_uint (Pos.to_uint p)
  | Zneg p => py "-" ++ digits_of_uint (Pos.to_uint p)
  end.

(** The value of an ASCII decimal digit. *)
Definition digit_value (c : N) : option Z :=
  if (48 <=? c) && (c <=? 57) then Some (Z.of_N (c - 48)) else None.

(** The digits of an [int] literal after the sign: digits, single
    underscores only between digits. [acc] is the value read so far,
    [after_digit] tells whether the previous code point was a digit. *)
Fixpoint int_digits (acc : Z) (after_digit : bool) (s : str) : option Z :=
  match s with
  | [] => if after_digit then Some acc else None
  | c :: s' =>
      match digit_value c with
      | Some d => int_digits (10 * acc + d) true s'
      | None =>
          if (c =? 95) && after_digit
          then match s' with
               | [] => None
               | c' :: _ => match digit_value c' with
                            | Some _ => int_digits acc false s'
                            | None => None
                            end
               end
          else None
      end
  end.

(** ** Exceptions and results *)

(** The exceptions the cycle can meet. [OSError] stands for every
    [OSError] other than [FileNotFoundError] (permission, is-a-directory,
    ...), [LibraryError] for an [Exception] raised inside Playwright,
    aiohttp or discord.py, and [CancelledError] for a [BaseException]
    that [except Exception] does not catch. *)
Inductive exception :=
  | TypeError
  | AttributeError
  | ValueError
  | FileNotFoundError
  | OSError (name : string)
  | UnicodeDecodeError
  | JSONDecodeError
  | LibraryError (name : string)
  | CancelledError.

#[global] Instance exception_eq_dec : EqDecision exception.
Proof. solve_decision. Defined.

(** [isinstance(e, Exception)] *)
Definition is_Exception (e : exception) : bool :=
  match e with
  | CancelledError => false
  | _ => true
  end.

(** The result of an expression: a value, a raised exception, or
    [Beyond]: the run has left the fragment of Python that is modelled
    here (a number in the snapshot file, a snapshot that is not a list of
    records, an [int()] argument with non-ASCII digits). Nothing is
    stated about a run that is [Beyond]. *)
Inductive result (A : Type) :=
  | Ok (a : A)
  | Raise (e : exception)
  | Beyond.
Arguments Ok {A} a.
Arguments Raise {A} e.
Arguments Beyond {A}.

#[global] Instance result_ret : MRet result := λ A a, Ok a.
#[global] Instance result_bind : MBind result := λ A B f m,
  match m with
  | Ok a => f a
  | Raise e => Raise e
  | Beyond => Beyond
  end.

(** [int(x)] for [x] a [str] or [None] (the two results of [os.getenv]).
    Surrounding whitespace is dropped, then an optional sign and ASCII
    digits are read. Digits of other scripts and literals past the
    integer string conversion limit are left out of the model. *)
Definition int (x : option str) : result Z :=
  match x with
  | None => Raise TypeError
  | Some s =>
      let t := strip s in
      if existsb (λ c, 128 <=? c) t || (4300 <? N.of_nat (length t))
      then Beyond
      else
        let signed (sign : Z) (r : str) : result Z :=
          match int_digits 0 false r with
          | Some n => Ok (sign * n)%Z
          | None => Raise ValueError
          end in
        match t with
        | 43 :: r => signed 1%Z r
        | 45 :: r => signed (-1)%Z r
        | _ => signed 1%Z t
        end
  end.
(** ** The document record and the diff loop *)

(** One entry of [current_pdfs] after the filename was attached, and one
    entry of the loaded snapshot: [document_id] and [filename] are [None]
    or a string. *)
Record pdf_entry := Pdf {
  title : str;
  url : str;
  document_id : option str;
  filename : option str
}.

#[global] Instance pdf_entry_eq_dec : EqDecision pdf_entry.
Proof. solve_decision. Defined.

(** [{pdf['url']: pdf for pdf in previous_pdfs}]: a later entry replaces an
    earlier one with the same key. *)
Definition previous_urls (previous_pdfs : list pdf_entry) : gmap str pdf_entry :=
  foldl (fun m pdf => <[url pdf := pdf]> m) ∅ previous_pdfs.

(** [{pdf['title']: pdf for pdf in previous_pdfs}] *)
Definition previous_titles (previous_pdfs : list pdf_entry) : gmap str pdf_entry :=
  foldl (fun m pdf => <[title pdf := pdf]> m) ∅ previous_pdfs.

(** The condition of lines 94-97, for a current entry and the entry that
    [previous_urls] holds for its url. *)
Definition file_changed (pdf previous_pdf : pdf_entry) : bool :=
  bool_decide (filename pdf ≠ filename previous_pdf)
  || (bool_decide (document_id pdf ≠ document_id previous_pdf)
      && bool_decide (title pdf = title previous_pdf)).

(** One iteration of the comparison loop (lines 90-103) on the pair
    [(new_pdfs, modified_pdfs)]. *)
Definition compare_step (urls titles : gmap str pdf_entry)
    (acc : list pdf_entry * list pdf_entry) (pdf : pdf_entry) : list pdf_entry * list pdf_entry :=
  let '(new_pdfs, modified_pdfs) := acc in
  match urls !! url pdf with
  | Some previous_pdf =>
      if file_changed pdf previous_pdf
      then (new_pdfs, modified_pdfs ++ [pdf])
      else (new_pdfs, modified_pdfs)
  | None =>
      match titles !! title pdf with
      | Some _ => (new_pdfs, modified_pdfs ++ [pdf])
      | None => (new_pdfs ++ [pdf], modified_pdfs)
      end
  end.

(** Lines 83-103: both lookup dicts are built from the snapshot, then the
    current entries are visited in order. *)
Definition compare_pdfs (previous_pdfs current_pdfs : list pdf_entry)
    : list pdf_entry * list pdf_entry :=
  foldl (compare_step (previous_urls previous_pdfs)
                      (previous_titles previous_pdfs))
        ([], []) current_pdfs.

Definition new_pdfs (previous_pdfs current_pdfs : list pdf_entry) : list pdf_entry :=
  fst (compare_pdfs previous_pdfs current_pdfs).

Definition modified_pdfs (previous_pdfs current_pdfs : list pdf_entry) : list pdf_entry :=
  snd (compare_pdfs previous_pdfs current_pdfs).

(** The three outcomes of one iteration. *)
Inductive verdict := New | Modified | Unchanged.

#[global] Instance verdict_eq_dec : EqDecision verdict.
Proof. solve_decision. Defined.

(** What one iteration does with an entry, read off [compare_step]. *)
Definition classify (urls titles : gmap str pdf_entry) (pdf : pdf_entry) : verdict :=
  match urls !! url pdf with
  | Some previous_pdf =>
      if file_changed pdf previous_pdf then Modified else Unchanged
  | None =>
      match titles !! title pdf with
      | Some _ => Modified
      | None => New
      end
  end.


(** ** JSON: the values and the text that [json.dump] and [json.load] exchange *)

(** The Python values of the snapshot: [None], [bool], [str], [list] and
    [dict] with [str] keys in insertion order. Numbers are not part of the
    model. *)
#[local] Unset Elimination Schemes.
Inductive json :=
  | JNull
  | JBool (b : bool)
  | JStr (s : str)
  | JList (l : list json)
  | JDict (items : list (str * json)).
#[local] Set Elimination Schemes.

(** Induction on a value, with the items of a list and of a dict. *)
Section json_induction.
Variable P : json → Prop.
Hypothesis Hnull : P JNull.
Hypothesis Hbool : ∀ b, P (JBool b).
Hypothesis Hstr : ∀ s, P (JStr s).
Hypothesis Hlist : ∀ l, Forall P l → P (JList l).
Hypothesis Hdict : ∀ items, Forall (λ kv, P kv.2) items → P (JDict items).

Fixpoint json_ind (o : json) : P o :=
    match o with
    | JNull => Hnull
    | JBool b => Hbool b
    | JStr s => Hstr s
    | JList l =>
        Hlist l ((fix all (l : list json) : Forall P l :=
                    match l with
                    | [] => Forall_nil_2 P
                    | o :: l' => Forall_cons_2 P o l' (json_ind o) (all l')
                    end) l)
    | JDict items =>
        Hdict items
          ((fix all (l : list (str * json)) : Forall (λ kv, P kv.2) l :=
              match l with
              | [] => Forall_nil_2 _
              | (k, o) :: l' =>
                  Forall_cons_2 (λ kv, P kv.2) (k, o) l' (json_ind o) (all l')
              end) items)
    end.
End json_induction.

(** One lowercase hexadecimal digit, as [format(n, 'x')] prints it. *)
Definition hex_digit (n : N) : N :=
  if n <? 10 then 48 + n else 87 + n.

(** ['\\u{0:04x}'.format(n)], for [n] below [0x10000]. *)
Definition u_escape (n : N) : str :=
  [92; 117; hex_digit (n / 4096); hex_digit ((n / 256) mod 16);
   hex_digit ((n / 16) mod 16); hex_digit (n mod 16)].

(** The replacement of one code point in [encode_basestring_ascii]:
    [ESCAPE_DCT] first, printable ASCII is kept, everything else becomes
    one [\uXXXX] escape, or a surrogate pair of two from [0x10000] on. *)
Definition escape_ascii (c : N) : str :=
  if c =? 34 then [92; 34]
  else if c =? 92 then [92; 92]
  else if c =? 8 then [92; 98]
  else if c =? 12 then [92; 102]
  else if c =? 10 then [92; 110]
  else if c =? 13 then [92; 114]
  else if c =? 9 then [92; 116]
  else if (32 <=? c) && (c <=? 126) then [c]
  else if c <? 0x10000 then u_escape c
  else
    let n := c - 0x10000 in
    u_escape (N.lor 0xd800 (N.land (N.shiftr n 10) 0x3ff))
    ++ u_escape (N.lor 0xdc00 (N.land n 0x3ff)).

Fixpoint escape_all (s : str) : str :=
  match s with
  | [] => []
  | c :: s' => escape_ascii c ++ escape_all s'
  end.

(** [encode_basestring_ascii(s)] *)
Definition encode_basestring_ascii (s : str) : str :=
  34 :: escape_all s ++ [34].

(** ['\n' + indent * level] with [indent=4]. *)
Definition newline_indent (level : nat) : str :=
  10 :: repeat 32 (4 * level)%nat.

(** [json.dumps(o, indent=4)] at nesting depth [level]: the chunks of
    [_iterencode], [_iterencode_list] and [_iterencode_dict] put together.
    An empty list or dict is [[]] or [{}]; otherwise every item is on a line
    of its own, items are separated by [,] and a key is followed by [: ]. *)
Fixpoint iterencode (level : nat) (o : json) {struct o} : str :=
  match o with
  | JNull => py "null"
  | JBool true => py "true"
  | JBool false => py "false"
  | JStr s => encode_basestring_ascii s
  | JList [] => py "[]"
  | JList (first :: more) =>
      91 :: newline_indent (S level) ++ iterencode (S level) first
      ++ (fix rest (l : list json) : str :=
            match l with
            | [] => newline_indent level ++ [93]
            | value :: l' =>
                44 :: newline_indent (S level) ++ iterencode (S level) value
                ++ rest l'
            end) more
  | JDict [] => py "{}"
  | JDict ((key, first) :: more) =>
      123 :: newline_indent (S level) ++ encode_basestring_ascii key
      ++ py ": " ++ iterencode (S level) first
      ++ (fix rest (l : list (str * json)) : str :=
            match l with
            | [] => newline_indent level ++ [125]
            | (key, value) :: l' =>
                44 :: newline_indent (S level) ++ encode_basestring_ascii key
                ++ py ": " ++ iterencode (S level) value ++ rest l'
            end) more
  end.

Definition dumps (o : json) : str := iterencode 0 o.

(** The value of one hexadecimal digit, either case. *)
Definition hex_value (c : N) : option N :=
  if (48 <=? c) && (c <=? 57) then Some (c - 48)
  else if (97 <=? c) && (c <=? 102) then Some (c - 87)
  else if (65 <=? c) && (c <=? 70) then Some (c - 55)
  else None.

(** [_decode_uXXXX] on the four code points after [\u]. *)
Definition decode_uXXXX (a b c d : N) : option N :=
  match hex_value a, hex_value b, hex_value c, hex_value d with
  | Some a, Some b, Some c, Some d => Some (((a * 16 + b) * 16 + c) * 16 + d)
  | _, _, _, _ => None
  end.

(** The [BACKSLASH] table of the decoder. *)
Definition backslash (esc : N) : option N :=
  if esc =? 34 then Some 34
  else if esc =? 92 then Some 92
  else if esc =? 47 then Some 47
  else if esc =? 98 then Some 8
  else if esc =? 102 then Some 12
  else if esc =? 110 then Some 10
  else if esc =? 114 then Some 13
  else if esc =? 116 then Some 9
  else None.

Definition is_high_surrogate (c : N) : bool := (0xd800 <=? c) && (c <=? 0xdbff).
Definition is_low_surrogate (c : N) : bool := (0xdc00 <=? c) && (c <=? 0xdfff).

(** One more code point in front of the chunks still to be read. *)
Definition literal (c : N) (m : result (str * str)) : result (str * str) :=
  '(chunk, r) ← m; Ok (c :: chunk, r).

(** [scanstring(s, end, strict=True)], from the code point after the
    opening quote: the decoded string and the input after the closing
    quote. A [\u] escape of a high surrogate that is directly followed by a
    [\u] escape of a low surrogate is read as one code point. *)
Fixpoint scanstring (s : str) : result (str * str) :=
  match s with
  | [] => Raise JSONDecodeError
  | c :: s1 =>
      if c =? 34 then Ok ([], s1)
      else if c =? 92 then
        match s1 with
        | [] => Raise JSONDecodeError
        | esc :: s2 =>
            if esc =? 117 then
              match s2 with
              | a :: b :: c :: d :: s3 =>
                  match decode_uXXXX a b c d with
                  | None => Raise JSONDecodeError
                  | Some uni =>
                      match s3 with
                      | bs :: u :: s4 =>
                          if is_high_surrogate uni && (bs =? 92) && (u =? 117)
                          then
                            match s4 with
                            | a2 :: b2 :: c2 :: d2 :: s5 =>
                                match decode_uXXXX a2 b2 c2 d2 with
                                | None => Raise JSONDecodeError
                                | Some uni2 =>
                                    if is_low_surrogate uni2
                                    then literal
                                           (0x10000 +
                                            N.lor (N.shiftl (uni - 0xd800) 10)
                                                  (uni2 - 0xdc00))
                                           (scanstring s5)
                                    else literal uni (scanstring s3)
                                end
                            | _ => Raise JSONDecodeError
                            end
                          else literal uni (scanstring s3)
                      | _ => literal uni (scanstring s3)
                      end
                  end
              | _ => Raise JSONDecodeError
              end
            else
              match backslash esc with
              | Some char => literal char (scanstring s2)
              | None => Raise JSONDecodeError
              end
        end
      else if c <? 32 then Raise JSONDecodeError
      else literal c (scanstring s1)
  end.

(** The [WHITESPACE] pattern: space, tab, line feed, carriage return. *)
Definition is_ws (c : N) : bool :=
  (c =? 32) || (c =? 9) || (c =? 10) || (c =? 13).

Fixpoint skip_ws (s : str) : str :=
  match s with
  | c :: s' => if is_ws c then skip_ws s' else s
  | [] => []
  end.

(** [d[key] = value] on a dict kept in insertion order. *)
Fixpoint dict_set (key : str) (value : json) (d : list (str * json))
    : list (str * json) :=
  match d with
  | [] => [(key, value)]
  | (k, v) :: d' =>
      if decide (k = key) then (k, value) :: d'
      else (k, v) :: dict_set key value d'
  end.

(** [dict(pairs)] *)
Definition dict_of_pairs (pairs : list (str * json)) : list (str * json) :=
  foldl (λ d kv, dict_set kv.1 kv.2 d) [] pairs.

(** Whether a number literal starts here: a digit, or a minus sign and a
    digit, which is where [NUMBER_RE] matches; or one of [NaN], [Infinity],
    [-Infinity]. *)
Definition number_starts (s : str) : bool :=
  let digit (c : N) := (48 <=? c) && (c <=? 57) in
  match s with
  | c :: s' =>
      digit c
      || ((c =? 45) && match s' with d :: _ => digit d | [] => false end)
      || startswith (py "NaN") s
      || startswith (py "Infinity") s
      || startswith (py "-Infinity") s
  | [] => false
  end.

(** [scan_once], [JSONArray] and [JSONObject] of the decoder; each returns
    the value and the input left after it. [array_items] is the loop of
    [JSONArray] with the values read so far (reversed), [object_items] the
    loop of [JSONObject], entered after the opening quote of a key. The
    first argument bounds the depth of the calls; [loads] passes more than
    the input is long. *)
Fixpoint scan_once (fuel : nat) (s : str) : result (json * str) :=
  match fuel with
  | O => Beyond
  | S fuel =>
      match s with
      | [] => Raise JSONDecodeError
      | c :: s' =>
          if c =? 34 then
            '(x, r) ← scanstring s'; Ok (JStr x, r)
          else if c =? 123 then
            match skip_ws s' with
            | c1 :: r1 =>
                if c1 =? 125 then Ok (JDict [], r1)
                else if c1 =? 34 then object_items fuel [] r1
                else Raise JSONDecodeError
            | [] => Raise JSONDecodeError
            end
          else if c =? 91 then
            match skip_ws s' with
            | c1 :: r1 =>
                if c1 =? 93 then Ok (JList [], r1)
                else array_items fuel [] (c1 :: r1)
            | [] => Raise JSONDecodeError
            end
          else if startswith (py "null") s then Ok (JNull, drop 4 s)
          else if startswith (py "true") s then Ok (JBool true, drop 4 s)
          else if startswith (py "false") s then Ok (JBool false, drop 5 s)
          else if number_starts s then Beyond
          else Raise JSONDecodeError
      end
  end
with array_items (fuel : nat) (values : list json) (s : str)
    : result (json * str) :=
  match fuel with
  | O => Beyond
  | S fuel =>
      '(value, r) ← scan_once fuel s;
      match skip_ws r with
      | c :: r1 =>
          if c =? 93 then Ok (JList (rev (value :: values)), r1)
          else if c =? 44
          then array_items fuel (value :: values) (skip_ws r1)
          else Raise JSONDecodeError
      | [] => Raise JSONDecodeError
      end
  end
with object_items (fuel : nat) (pairs : list (str * json)) (s : str)
    : result (json * str) :=
  match fuel with
  | O => Beyond
  | S fuel =>
      '(key, r) ← scanstring s;
      match skip_ws r with
      | c :: r1 =>
          if c =? 58 then
            '(value, r2) ← scan_once fuel (skip_ws r1);
            match skip_ws r2 with
            | c2 :: r3 =>
                if c2 =? 125
                then Ok (JDict (dict_of_pairs (rev ((key, value) :: pairs))), r3)
                else if c2 =? 44 then
                  match skip_ws r3 with
                  | q :: r4 =>
                      if q =? 34
                      then object_items fuel ((key, value) :: pairs) r4
                      else Raise JSONDecodeError
                  | [] => Raise JSONDecodeError
                  end
                else Raise JSONDecodeError
            | [] => Raise JSONDecodeError
            end
          else Raise JSONDecodeError
      | [] => Raise JSONDecodeError
      end
  end.

(** [json.loads(s)]: a leading byte order mark is refused, whitespace
    around the one value is skipped, anything after it is an error. *)
Definition loads (s : str) : result json :=
  if startswith [0xfeff] s then Raise JSONDecodeError
  else
    '(obj, r) ← scan_once (S (length s)) (skip_ws s);
    match skip_ws r with
    | [] => Ok obj
    | _ :: _ => Raise JSONDecodeError
    end.

(** The strings that [dumps] and [loads] carry unchanged: code points
    below [0x110000], and no high surrogate directly followed by a low
    surrogate (the decoder reads the two escapes of such a pair as one
    code point). *)
Fixpoint str_ok (s : str) : bool :=
  match s with
  | [] => true
  | c :: s' =>
      (c <? 0x110000)
      && negb (is_high_surrogate c
               && match s' with
                  | c' :: _ => is_low_surrogate c'
                  | [] => false
                  end)
      && str_ok s'
  end.

(** The values of the model that are Python values: the strings are as
    above and the keys of a dict are distinct. *)
Fixpoint json_ok (o : json) : bool :=
  match o with
  | JNull | JBool _ => true
  | JStr s => str_ok s
  | JList l => forallb json_ok l
  | JDict items =>
      bool_decide (NoDup (items.*1))
      && forallb (λ kv, let '(k, v) := kv in str_ok k && json_ok v) items
  end.

(** The tail of a list or dict in [iterencode], after the first item. *)
Fixpoint list_rest (level : nat) (l : list json) : str :=
  match l with
  | [] => newline_indent level ++ [93]
  | value :: l' =>
      44 :: newline_indent (S level) ++ iterencode (S level) value
      ++ list_rest level l'
  end.

Fixpoint dict_rest (level : nat) (l : list (str * json)) : str :=
  match l with
  | [] => newline_indent level ++ [125]
  | (key, value) :: l' =>
      44 :: newline_indent (S level) ++ encode_basestring_ascii key
      ++ py ": " ++ iterencode (S level) value ++ dict_rest level l'
  end.

(** Input on which the decoder, having read the escape of a high
    surrogate, goes on without pairing it: a [\u] escape that follows is
    complete and is not a low surrogate. *)
Definition plain_after (s3 : str) : Prop :=
  ∀ s4, s3 = 92 :: 117 :: s4 →
    ∃ a b c d s5 uni2,
      s4 = a :: b :: c :: d :: s5
      ∧ decode_uXXXX a b c d = Some uni2
      ∧ is_low_surrogate uni2 = false.

(** The first code point of an encoded value: never whitespace, never a
    closing bracket. *)
Definition opens_value (c : N) : Prop :=
  c = 110 ∨ c = 116 ∨ c = 102 ∨ c = 34 ∨ c = 91 ∨ c = 123.


(** What the induction on a value carries: at any depth and with enough
    fuel, [scan_once] reads the encoding back and stops right after it. *)
Definition reads_back (o : json) : Prop :=
  json_ok o = true →
  ∀ level fuel rest,
    (length (iterencode level o) ≤ fuel)%nat →
    scan_once fuel (iterencode level o ++ rest) = Ok (o, rest).


(** ** The BeautifulSoup tree and the listing parser *)

(** An attribute value as [html.parser] stores it: one string, or the list
    of whitespace-separated values of a multi-valued attribute such as
    [class]. *)
Inductive attr_value :=
  | AttrStr (s : str)
  | AttrList (l : list str).

(** A page element. [Text] is a [NavigableString] (or [CData]);
    [OtherString] is a string of any other class (comment, doctype,
    declaration, processing instruction, script or style text), which
    [find(text=True)] matches and [get_text] leaves out. *)
#[local] Unset Elimination Schemes.
Inductive node :=
  | Text (s : str)
  | OtherString (s : str)
  | Tag (name : str) (attrs : gmap str attr_value) (contents : list node).
#[local] Set Elimination Schemes.

(** A [Tag] with its fields. *)
Record tag := MkTag {
  name : str;
  attrs : gmap str attr_value;
  contents : list node
}.

(** [SoupStrainer._matches(attr_value, match_against)] for a string
    [match_against]: a multi-valued attribute matches by one of its values
    or by the values joined with spaces; a missing attribute matches only
    the empty string. *)
Definition attr_matches (value : option attr_value) (match_against : str)
    : bool :=
  match value with
  | None => bool_decide (match_against = [])
  | Some (AttrStr s) => bool_decide (s = match_against)
  | Some (AttrList l) =>
      existsb (λ item, bool_decide (item = match_against)) l
      || bool_decide (join (py " ") l = match_against)
  end.

(** The test of [find(name, {attr: value})]. *)
Definition tag_matches (tag_name : str) (wanted : list (str * str)) (t : tag)
    : bool :=
  bool_decide (name t = tag_name)
  && forallb (λ kv, attr_matches (attrs t !! kv.1) kv.2) wanted.

(** The first tag, in document order, that passes [test] among a node
    and its descendants, together with the siblings that follow that tag;
    [siblings] are the siblings that follow [n] itself. *)
Fixpoint find_from (test : tag → bool) (n : node) (siblings : list node)
    : option (tag * list node) :=
  match n with
  | Tag name attrs contents =>
      if test (MkTag name attrs contents)
      then Some (MkTag name attrs contents, siblings)
      else
        (fix children (l : list node) : option (tag * list node) :=
           match l with
           | [] => None
           | child :: l' =>
               match find_from test child l' with
               | Some found => Some found
               | None => children l'
               end
           end) contents
  | _ => None
  end.

(** The same search over a list of sibling nodes. *)
Fixpoint find_with_next_siblings (test : tag → bool) (l : list node)
    : option (tag * list node) :=
  match l with
  | [] => None
  | n :: siblings =>
      match find_from test n siblings with
      | Some found => Some found
      | None => find_with_next_siblings test siblings
      end
  end.

(** [t.find(name, attrs)]: the first matching descendant of [t]. *)
Definition find (tag_name : str) (wanted : list (str * str)) (t : tag)
    : option tag :=
  fst <$> find_with_next_siblings (tag_matches tag_name wanted) (contents t).

(** [element.find_next_siblings(name)] on the siblings after the element:
    the tags with that name, in order. *)
Fixpoint find_next_siblings (tag_name : str) (siblings : list node)
    : list tag :=
  match siblings with
  | [] => []
  | Tag name attrs contents :: siblings' =>
      if bool_decide (name = tag_name)
      then MkTag name attrs contents :: find_next_siblings tag_name siblings'
      else find_next_siblings tag_name siblings'
  | _ :: siblings' => find_next_siblings tag_name siblings'
  end.

(** [t.find(text=True, recursive=False)]: the first child that is a
    string. *)
Fixpoint find_text (children : list node) : option str :=
  match children with
  | [] => None
  | Text s :: _ => Some s
  | OtherString s :: _ => Some s
  | Tag _ _ _ :: children' => find_text children'
  end.

(** [t.get_text(strip=True)]: the [Text] descendants in document order,
    each stripped, the empty ones dropped, joined without a separator. *)
Fixpoint stripped_strings (n : node) : str :=
  match n with
  | Text s => strip s
  | OtherString _ => []
  | Tag _ _ contents =>
      (fix children (l : list node) : str :=
         match l with
         | [] => []
         | child :: l' => stripped_strings child ++ children l'
         end) contents
  end.

Definition get_text_strip (t : tag) : str :=
  stripped_strings (Tag (name t) (attrs t) (contents t)).

(** ["folder" in sibling.get("class", [])]: membership in the list of
    classes, a substring test should the attribute be one string. *)
Definition has_folder_class (t : tag) : bool :=
  match attrs t !! py "class" with
  | None => false
  | Some (AttrList l) => existsb (λ item, bool_decide (item = py "folder")) l
  | Some (AttrStr s) => contains (py "folder") s
  end.

(** Lines 161-166: the rows after the marker row, up to the next folder
    row. *)
Fixpoint rows_until_folder (siblings : list tag) : list tag :=
  match siblings with
  | [] => []
  | sibling :: siblings' =>
      if has_folder_class sibling then []
      else sibling :: rows_until_folder siblings'
  end.

(** One entry of [links]: the dict with keys [title], [url] and
    [document_id] that [scrape_pdfs] appends. *)
Record link := Link {
  link_title : str;
  link_url : str;
  link_document_id : option str
}.

Definition base_url : str := py "https://www.fsaeonline.com".

(** The body of the loop over [rows] (lines 172-203): [None] when the row
    has no download button with an [href], the new entry of [links]
    otherwise. An attribute access on [None] raises [AttributeError]. *)
Definition scrape_row (row : tag) : result (option link) :=
  first_cell ← match find (py "td") [] row with
               | Some cell => Ok cell
               | None => Raise AttributeError
               end;
  main_title ← match find_text (contents first_cell) with
               | Some s => Ok (strip s)
               | None => Raise AttributeError
               end;
  let desc_text :=
    match find (py "span") [] first_cell with
    | Some desc_tag => get_text_strip desc_tag
    | None => []
    end in
  let final_title :=
    match desc_text with
    | [] => main_title
    | _ :: _ => main_title ++ py " (" ++ desc_text ++ py ")"
    end in
  match find (py "a") [(py "class", py "btn btn-primary")] row with
  | None => Ok None
  | Some download_tag =>
      match attrs download_tag !! py "href" with
      | None => Ok None
      | Some (AttrList _) => Raise TypeError
      | Some (AttrStr download_url) =>
          let full_url := base_url ++ download_url in
          let doc_id := split (py "DocumentID=") full_url !! 1%nat in
          Ok (Some (Link final_title full_url doc_id))
      end
  end.

(** The loop over [rows]: the first exception ends it. *)
Fixpoint scrape_rows (rows : list tag) : result (list link) :=
  match rows with
  | [] => Ok []
  | row :: rows' =>
      entry ← scrape_row row;
      links ← scrape_rows rows';
      Ok (match entry with
          | Some l => l :: links
          | None => links
          end)
  end.


(** The test of line 155: a [tr] whose [data-folder-id] is the name of
    the section. *)
Definition is_ruleset_row : tag → bool :=
  tag_matches (py "tr") [(py "data-folder-id", py "Ruleset and Resources")].

(** ** The world of one cycle *)

Inductive level := INFO | WARNING | ERROR.

(** The snapshot file [fsae_pdfs.json] as [open] and [read] see it:
    absent, failing to open or to decode with some exception, or holding a
    text. *)
Inductive file :=
  | Missing
  | Unreadable (e : exception)
  | Holds (text : str).

(** What one [session.head(url)] does: it raises [e] (whose [str(e)] is
    [message]), or it answers with the [Content-Disposition] header that
    [response.headers.get] returns. *)
Inductive head_outcome :=
  | HeadRaises (e : exception) (message : str)
  | HeadResponse (content_disposition : option str).

(** What the cycle reads from outside. [page] is the result of lines
    147-154: an exception raised by Playwright, or the tree that
    BeautifulSoup built from the rendered page. [head n url] is the outcome
    of the HEAD request to [url] when [n] requests were made before it.
    in this cycle. [get_channel] resolves a channel id to a channel, given by what its
    [send] does with a text ([None]: delivered). [write_error] is the
    exception that opening the snapshot file for writing raises, if any. *)
Record world := World {
  page : result (list node);
  head : nat → str → head_outcome;
  getenv : str → option str;
  get_channel : Z → option (str → option exception);
  write_error : option exception
}.

(** What the cycle changes: the snapshot file, the log, the messages sent
    (channel id and text), and the number of HEAD requests made. *)
Record effects := Effects {
  data_file : file;
  log : list (level * str);
  sent : list (Z * str);
  requests : nat
}.

(** A computation of the cycle: it runs on the effects so far and gives a
    result and the effects after it. *)
Definition M (A : Type) : Type := effects → result A * effects.

#[global] Instance M_ret : MRet M := λ A a st, (Ok a, st).
#[global] Instance M_bind : MBind M := λ A B f m st,
  match m st with
  | (Ok a, st') => f a st'
  | (Raise e, st') => (Raise e, st')
  | (Beyond, st') => (Beyond, st')
  end.

Definition lift {A} (r : result A) : M A := λ st, (r, st).

Definition raise {A} (e : exception) : M A := lift (Raise e).

(** [try: m  except <handled>: handler] *)
Definition try_except {A} (m : M A) (handled : exception → bool)
    (handler : exception → M A) : M A := λ st,
  match m st with
  | (Raise e, st') => if handled e then handler e st' else (Raise e, st')
  | other => other
  end.

(** [logger.info], [logger.warning], [logger.error] *)
Definition logger (l : level) (message : str) : M unit := λ st,
  (Ok (), Effects (data_file st) (log st ++ [(l, message)]) (sent st)
                  (requests st)).

(** ** The snapshot store *)

(** [open(DATA_FILE, "r", encoding="utf-8")] and [f.read()] *)
Definition read_text : M str := λ st,
  match data_file st with
  | Missing => (Raise FileNotFoundError, st)
  | Unreadable e => (Raise e, st)
  | Holds text => (Ok text, st)
  end.

(** [load_data] (lines 45-51) *)
Definition load_data : M json :=
  try_except
    (text ← read_text; lift (loads text))
    (λ e, bool_decide (e = FileNotFoundError))
    (λ _, mret (JList [])).

(** [save_data] (lines 40-43): the file is opened for writing and the
    dump replaces its content. *)
Definition save_data (w : world) (data : json) : M unit := λ st,
  match write_error w with
  | Some e => (Raise e, st)
  | None =>
      (Ok (), Effects (Holds (dumps data)) (log st) (sent st) (requests st))
  end.

(** A record as the Python dict it is, keys in insertion order. *)
Definition json_of_option (x : option str) : json :=
  match x with
  | None => JNull
  | Some s => JStr s
  end.

Definition record_dict (title url document_id filename : json) : json :=
  JDict [(py "title", title); (py "url", url); (py "document_id", document_id);
         (py "filename", filename)].

Definition json_of_pdf (pdf : pdf_entry) : json :=
  record_dict (JStr (title pdf)) (JStr (url pdf))
              (json_of_option (document_id pdf))
              (json_of_option (filename pdf)).

Definition json_of_pdfs (pdfs : list pdf_entry) : json :=
  JList (json_of_pdf <$> pdfs).

(** [d[key]] and [d.get(key)] on a dict. *)
Fixpoint dict_get (key : str) (d : list (str * json)) : option json :=
  match d with
  | [] => None
  | (k, v) :: d' => if decide (k = key) then Some v else dict_get key d'
  end.

(** The loaded snapshot read as records, the way lines 83-96 use it:
    [pdf['url']] and [pdf['title']] are strings, [pdf.get('document_id')]
    and [pdf.get('filename')] are strings or [None] (also when the key is
    missing). Any other shape is outside the model. *)
Definition pdf_of_json (o : json) : result pdf_entry :=
  match o with
  | JDict d =>
      let optional (key : str) : result (option str) :=
        match dict_get key d with
        | None | Some JNull => Ok None
        | Some (JStr s) => Ok (Some s)
        | Some _ => Beyond
        end in
      match dict_get (py "title") d, dict_get (py "url") d with
      | Some (JStr title), Some (JStr url) =>
          document_id ← optional (py "document_id");
          filename ← optional (py "filename");
          Ok (Pdf title url document_id filename)
      | _, _ => Beyond
      end
  | _ => Beyond
  end.

Fixpoint pdfs_of_list (l : list json) : result (list pdf_entry) :=
  match l with
  | [] => Ok []
  | o :: l' =>
      pdf ← pdf_of_json o;
      pdfs ← pdfs_of_list l';
      Ok (pdf :: pdfs)
  end.

Definition pdfs_of_json (o : json) : result (list pdf_entry) :=
  match o with
  | JList l => pdfs_of_list l
  | _ => Beyond
  end.

(** ** The metadata enricher *)

(** [async with aiohttp.ClientSession() as session]: a session of its own
    for every cycle, no request made yet. *)
Definition ClientSession : M unit := λ st,
  (Ok (), Effects (data_file st) (log st) (sent st) 0).


(** Lines 60-65: the last [;]-separated part that, stripped, starts with
    [filename=] gives the filename: the stripped text between its first
    and second [=]. Such a part contains [=], so [part.split('=')[1]]
    exists. *)
Definition filename_of_disposition (disposition : str) : option str :=
  foldl (λ filename part,
           if startswith (py "filename=") (strip part)
           then match split (py "=") part !! 1%nat with
                | Some value => Some (strip value)
                | None => filename
                end
           else filename)
        None (split (py ";") disposition).

(** [get_metadata] (lines 53-69), giving [metadata.get('filename')]. An
    [Exception] is logged and gives [None]; any other exception is not
    caught. *)
Definition get_metadata (w : world) (url : str) : M (option str) := λ st,
  let st' := Effects (data_file st) (log st) (sent st) (S (requests st)) in
  match head w (requests st) url with
  | HeadResponse (Some (c :: disposition)) =>
      (Ok (filename_of_disposition (c :: disposition)), st')
  | HeadResponse _ => (Ok None, st')
  | HeadRaises e message =>
      if is_Exception e
      then (logger ERROR (py "Could not fetch metadata for " ++ url
                          ++ py ": " ++ message);; mret None) st'
      else (Raise e, st')
  end.

(** Lines 79-81: every entry gets its [filename] key, in order. *)
Fixpoint attach_filenames (w : world) (links : list link)
    : M (list pdf_entry) :=
  match links with
  | [] => mret []
  | l :: links' =>
      filename ← get_metadata w (link_url l);
      pdfs ← attach_filenames w links';
      mret (Pdf (link_title l) (link_url l) (link_document_id l) filename
            :: pdfs)
  end.

(** ** The listing parser and the cycle *)

(** [scrape_pdfs] (lines 145-205): [None] when the marker row is not
    found (the bare [return] of line 158), the list [links] otherwise. *)
Definition scrape_pdfs (w : world) : M (option (list link)) :=
  soup ← lift (page w);
  match find_with_next_siblings is_ruleset_row soup with
  | None => logger WARNING (py "Ruleset row not found");; mret None
  | Some (ruleset_row, siblings) =>
      let rows := rows_until_folder (find_next_siblings (py "tr") siblings) in
      links ← lift (scrape_rows rows);
      mret (Some links)
  end.

(** [await channel.send(text)] on the channel with id [channel_id]. *)
Definition send (channel_id : Z) (channel : str → option exception)
    (text : str) : M unit := λ st,
  match channel text with
  | Some e => (Raise e, st)
  | None =>
      (Ok (), Effects (data_file st) (log st) (sent st ++ [(channel_id, text)])
                      (requests st))
  end.

(** The two announcements (lines 119-123 and 127-131). *)
Definition new_message (ROLE_ID : Z) (new_pdfs : list pdf_entry) : str :=
  join [10]
    ((py "<@&" ++ str_of_int ROLE_ID ++ py "> **New FSAE Rules Posted:**"
      ++ [10])
     :: ((λ pdf, py "> **" ++ title pdf ++ py ":**" ++ [10] ++ py "> "
                 ++ url pdf) <$> new_pdfs)).

Definition modified_message (ROLE_ID : Z) (modified_pdfs : list pdf_entry)
    : str :=
  join [10]
    ((py "<@&" ++ str_of_int ROLE_ID
      ++ py "> **FSAE Rules Have Been Updated:**" ++ [10])
     :: ((λ pdf, py "> **" ++ title pdf ++ py ":** **(Updated)**" ++ [10]
                 ++ py "> " ++ url pdf) <$> modified_pdfs)).

(** [if pdfs: ...] around one announcement. *)
Definition announce (channel_id : Z) (channel : str → option exception)
    (found : str) (message : list pdf_entry → str) (pdfs : list pdf_entry)
    : M unit :=
  match pdfs with
  | [] => mret ()
  | _ :: _ =>
      logger INFO (py "--- Found " ++ str_of_int (Z.of_nat (length pdfs))
                   ++ found);;
      send channel_id channel (message pdfs)
  end.

(** [check_for_updates] (lines 72-136), one cycle. The three ways out
    before line 136 are the [return] of line 109, the [return] of line 115,
    and an exception. *)
Definition check_for_updates (w : world) : M unit :=
  previous ← load_data;
  scraped ← scrape_pdfs w;
  ClientSession;;
  current_pdfs ← match scraped with
                 | Some links => attach_filenames w links
                 | None => raise TypeError
                 end;
  previous_pdfs ← lift (pdfs_of_json previous);
  let '(new_pdfs, modified_pdfs) := compare_pdfs previous_pdfs current_pdfs in
  CHANNEL_ID ← lift (int (getenv w (py "CHANNEL_ID")));
  ROLE_ID ← lift (int (getenv w (py "ROLE_ID")));
  if bool_decide (CHANNEL_ID = 0%Z) || bool_decide (ROLE_ID = 0%Z) then
    logger WARNING
      (py "CHANNEL_ID or ROLE_ID not set in env file. Skipping announcements.")
  else
    match new_pdfs, modified_pdfs with
    | [], [] =>
        logger INFO (py "--- No new or modified documents found. ---");;
        save_data w (json_of_pdfs current_pdfs)
    | _, _ =>
        match get_channel w CHANNEL_ID with
        | None => mret ()
        | Some channel =>
            announce CHANNEL_ID channel
              (py " new documents in 'Ruleset and Resources': ---")
              (new_message ROLE_ID) new_pdfs;;
            announce CHANNEL_ID channel
              (py " modified documents in 'Ruleset and Resources': ---")
              (modified_message ROLE_ID) modified_pdfs;;
            save_data w (json_of_pdfs current_pdfs)
        end
    end.

(** The effects a cycle starts from, given the snapshot file. *)
Definition start (f : file) : effects := Effects f [] [] 0.

(** A computation that leaves the snapshot file as it is, and one that
    never returns normally. *)
Definition keeps_file {A} (m : M A) : Prop :=
  ∀ st, data_file (m st).2 = data_file st.

Definition never_returns {A} (m : M A) : Prop :=
  ∀ st a, (m st).1 ≠ Ok a.

(** A record whose strings [dumps] and [loads] carry unchanged. *)
Definition pdf_ok (pdf : pdf_entry) : bool :=
  str_ok (title pdf) && str_ok (url pdf)
  && from_option str_ok true (document_id pdf)
  && from_option str_ok true (filename pdf).

(** [metadata.get('filename')] for the answer to the first request of a
    session. *)
Definition filename_at (w : world) (url : str) : option str :=
  match head w 0 url with
  | HeadResponse (Some (c :: disposition)) =>
      filename_of_disposition (c :: disposition)
  | _ => None
  end.

(** The document id that line 195 reads off a url. *)
Definition document_id_of (url : str) : option str :=
  split (py "DocumentID=") url !! 1%nat.
(** *** The examples of the specification, as instances *)

Definition rules : pdf_entry :=
  Pdf (py "Rules") (py "u1") (Some (py "5")) (Some (py "a.pdf")).
Definition rules_renamed_file : pdf_entry :=
  Pdf (py "Rules") (py "u1") (Some (py "5")) (Some (py "b.pdf")).
Definition rules2 : pdf_entry :=
  Pdf (py "Rules2") (py "u1") (Some (py "9")) (Some (py "a.pdf")).
Definition rules_2024 (u : string) : pdf_entry :=
  Pdf (py "Rules 2024") (py u) None None.
Definition new_doc : pdf_entry :=
  Pdf (py "New Doc") (py "u9") None None.


(** *** Example pages and worlds *)

Definition marker_row : node :=
  Tag (py "tr")
      (<[py "data-folder-id" := AttrStr (py "Ruleset and Resources")]>
         (<[py "class" := AttrList [py "folder"]]> ∅))
      [Tag (py "td") ∅ [Text (py "Ruleset and Resources")]].

Definition download_button (href : string) : node :=
  Tag (py "a")
      (<[py "class" := AttrList [py "btn"; py "btn-primary"]]>
         (<[py "href" := AttrStr (py href)]> ∅))
      [Text (py "Download")].

Definition document_row (label : string) (href : string) : node :=
  Tag (py "tr") ∅
      [Tag (py "td") ∅ [Text (py label)];
       Tag (py "td") ∅ [download_button href]].

Definition table (rows : list node) : list node :=
  [Tag (py "html") ∅ [Tag (py "body") ∅ [Tag (py "table") ∅ rows]]].

(** A page whose table has no row with the marker attribute. *)
Definition page_without_marker : list node :=
  table [document_row "Rules 2024" "/doc?DocumentID=1"].

(** A page with one document listed under the marker row. *)
Definition page_one_document : list node :=
  table [marker_row; document_row "Rules 2024" "/doc?DocumentID=1"].

(** A row without any cell, and a row whose first cell holds its label
    only inside a nested tag. *)
Definition row_without_cell : node := Tag (py "tr") ∅ [].

Definition cell_without_text : node :=
  Tag (py "td") ∅ [Tag (py "b") ∅ [Text (py "Rules 2024")]].

Definition row_without_text : node :=
  Tag (py "tr") ∅
      [cell_without_text; Tag (py "td") ∅ [download_button "/doc?DocumentID=1"]].

Definition page_row_without_cell : list node :=
  table [marker_row; row_without_cell].

Definition page_row_without_text : list node :=
  table [marker_row; row_without_text].

(** An environment with both identifiers, and environments built from
    it. *)
Definition env (CHANNEL_ID ROLE_ID : option str) (key : str) : option str :=
  if decide (key = py "CHANNEL_ID") then CHANNEL_ID
  else if decide (key = py "ROLE_ID") then ROLE_ID
  else None.

(** A world in which every HEAD request is answered without a
    [Content-Disposition] header, every channel resolves and delivers,
    and the snapshot file can be written. *)
Definition quiet_world (page : list node) (getenv : str → option str) : world :=
  World (Ok page) (λ _ _, HeadResponse None) getenv (λ _, Some (λ _, None))
        None.

(** The same world with no channel in the cache. *)
Definition world_without_channel (page : list node)
    (getenv : str → option str) : world :=
  World (Ok page) (λ _ _, HeadResponse None) getenv (λ _, None) None.

(** The one record of [page_one_document]. *)
Definition rules_2024_entry : pdf_entry :=
  Pdf (py "Rules 2024") (py "https://www.fsaeonline.com/doc?DocumentID=1")
      (Some (py "1")) None.

(** The snapshot file after a cycle that listed [rules]. *)
Definition old_snapshot : file := Holds (dumps (json_of_pdfs [rules])).

Definition ids : str → option str := env (Some (py "42")) (Some (py "7")).

(** *** Further example records *)

Definition rules_new_id : pdf_entry :=
  Pdf (py "Rules") (py "u1") (Some (py "9")) (Some (py "a.pdf")).

Definition rules_2024_renamed : pdf_entry :=
  Pdf (py "Rules 2024") (py "https://www.fsaeonline.com/doc?DocumentID=1")
      (Some (py "1")) (Some (py "rules.pdf")).

Definition rules_2024_link : link :=
  Link (py "Rules 2024") (py "https://www.fsaeonline.com/doc?DocumentID=1")
       (Some (py "1")).

(** ** The batch of lines 79-81 as one function *)

(** [metadata.get('filename')] for one outcome of a HEAD request that
    [get_metadata] does not let through. *)
Definition metadata_filename (outcome : head_outcome) : option str :=
  match outcome with
  | HeadResponse (Some (c :: disposition)) =>
      filename_of_disposition (c :: disposition)
  | _ => None
  end.

(** The entry that the request numbered [n] turns a link into. *)
Definition enriched (w : world) (n : nat) (l : link) : pdf_entry :=
  Pdf (link_title l) (link_url l) (link_document_id l)
      (metadata_filename (head w n (link_url l))).

(** ** The tags of a page *)

Section node_induction.
Variable P : node → Prop.
Hypothesis Htext : ∀ s, P (Text s).
Hypothesis Hother : ∀ s, P (OtherString s).
Hypothesis Htag : ∀ name attrs contents,
  Forall P contents → P (Tag name attrs contents).

Fixpoint node_ind (n : node) : P n :=
  match n with
  | Text s => Htext s
  | OtherString s => Hother s
  | Tag name attrs contents =>
      Htag name attrs contents
        ((fix all (l : list node) : Forall P l :=
            match l with
            | [] => Forall_nil_2 P
            | c :: l' => Forall_cons_2 P c l' (node_ind c) (all l')
            end) contents)
  end.
End node_induction.

(** A tag and all tags below it, in document order. *)
Fixpoint tags_in (n : node) : list tag :=
  match n with
  | Tag name attrs contents =>
      MkTag name attrs contents
      :: (fix children (l : list node) : list tag :=
            match l with
            | [] => []
            | child :: l' => tags_in child ++ children l'
            end) contents
  | _ => []
  end.

(** All tags of a page, in document order. *)
Fixpoint tags_of (l : list node) : list tag :=
  match l with
  | [] => []
  | n :: l' => tags_in n ++ tags_of l'
  end.

(** *** Example rows *)

Definition rules_2024_row : tag :=
  MkTag (py "tr") ∅
        [Tag (py "td") ∅ [Text (py "Rules 2024")];
         Tag (py "td") ∅ [download_button "/doc?DocumentID=1"]].

Definition folder_row : tag :=
  MkTag (py "tr") (<[py "class" := AttrList [py "folder"]]> ∅)
        [Tag (py "td") ∅ [Text (py "Archive")]].

(** ** The second half of the cycle *)

(** Lines 86-136 as a function of the current and the previous list: the
    diff loop, the two identifiers, the announcements and the save. *)
Definition notify_and_save (w : world)
    (current_pdfs previous_pdfs : list pdf_entry) : M unit :=
  let '(new_pdfs, modified_pdfs) := compare_pdfs previous_pdfs current_pdfs in
  CHANNEL_ID ← lift (int (getenv w (py "CHANNEL_ID")));
  ROLE_ID ← lift (int (getenv w (py "ROLE_ID")));
  if bool_decide (CHANNEL_ID = 0%Z) || bool_decide (ROLE_ID = 0%Z) then
    logger WARNING
      (py "CHANNEL_ID or ROLE_ID not set in env file. Skipping announcements.")
  else
    match new_pdfs, modified_pdfs with
    | [], [] =>
        logger INFO (py "--- No new or modified documents found. ---");;
        save_data w (json_of_pdfs current_pdfs)
    | _, _ =>
        match get_channel w CHANNEL_ID with
        | None => mret ()
        | Some channel =>
            announce CHANNEL_ID channel
              (py " new documents in 'Ruleset and Resources': ---")
              (new_message ROLE_ID) new_pdfs;;
            announce CHANNEL_ID channel
              (py " modified documents in 'Ruleset and Resources': ---")
              (modified_message ROLE_ID) modified_pdfs;;
            save_data w (json_of_pdfs current_pdfs)
        end
    end.

(** The message of one announcement, if the list is not empty. *)
Definition announcement (channel_id : Z) (message : list pdf_entry → str)
    (pdfs : list pdf_entry) : list (Z * str) :=
  match pdfs with
  | [] => []
  | _ :: _ => [(channel_id, message pdfs)]
  end.

(** The messages of a cycle that announces everything it found: the new
    documents first, then the modified ones. *)
Definition announcements (CHANNEL_ID ROLE_ID : Z)
    (new_pdfs modified_pdfs : list pdf_entry) : list (Z * str) :=
  announcement CHANNEL_ID (new_message ROLE_ID) new_pdfs
  ++ announcement CHANNEL_ID (modified_message ROLE_ID) modified_pdfs.

(** A computation that sends nothing. *)
Definition keeps_sent {A} (m : M A) : Prop :=
  ∀ st, sent (m st).2 = sent st.


(** ** The text of the snapshot file *)

(** A line feed or a printable ASCII character. *)
Definition plain (c : N) : Prop := c = 10 ∨ (32 ≤ c ∧ c ≤ 126).

(** ** Loading the cogs ([bot.py], [setup_hook]) *)

(** [s.endswith(suffix)] *)
Definition endswith (suffix s : str) : bool :=
  startswith (rev suffix) (rev s).

(** One path that [COGS_DIR.iterdir()] yields: its [name], its [stem] and
    its [str]. *)
Record cog_file := CogFile {
  file_name : str;
  file_stem : str;
  file_path : str
}.

(** The directory of the cogs: missing, or listed in some order, or
    failing to be listed with an exception. *)
Inductive cogs_dir :=
  | NoCogsDir
  | Listing (files : list cog_file)
  | ListingFails (e : exception).

(** What [setup_hook] changes: the log and the extensions loaded. *)
Record boot := Boot {
  boot_log : list (level * str);
  extensions : list str
}.

(** The test of line 59. *)
Definition is_cog (f : cog_file) : bool :=
  endswith (py ".py") (file_name f) && negb (startswith (py "_") (file_name f)).

Definition extension_of (f : cog_file) : str := py "bot.cogs." ++ file_stem f.

(** The loop of lines 57-65. [load_extension loaded extension] is the
    exception that loading [extension] raises when [loaded] are loaded
    already, if any. *)
Fixpoint load_cogs (load_extension : list str → str → option exception)
    (files : list cog_file) (b : boot) : result () * boot :=
  match files with
  | [] => (Ok (), b)
  | filename :: files' =>
      if is_cog filename then
        let extension := extension_of filename in
        match load_extension (extensions b) extension with
        | None =>
            load_cogs load_extension files'
              (Boot (boot_log b
                     ++ [(INFO, py "Loaded Cog: " ++ file_path filename)])
                    (extensions b ++ [extension]))
        | Some e =>
            if is_Exception e
            then load_cogs load_extension files'
                   (Boot (boot_log b
                          ++ [(ERROR, py "Failed to load Cog: "
                                      ++ file_path filename)])
                         (extensions b))
            else (Raise e, b)
        end
      else load_cogs load_extension files' b
  end.

(** [setup_hook] (bot.py, lines 48-65); [COGS_DIR] is the [str] of the
    directory. *)
Definition setup_hook (COGS_DIR : str) (dir : cogs_dir)
    (load_extension : list str → str → option exception) (b : boot)
    : result () * boot :=
  match dir with
  | NoCogsDir =>
      (Ok (), Boot (boot_log b
                    ++ [(WARNING, py "Cogs Directory Not Found: " ++ COGS_DIR)])
                   (extensions b))
  | ListingFails e => (Raise e, b)
  | Listing files => load_cogs load_extension files b
  end.

(** Example files of the directory. *)
Definition scraper_py : cog_file :=
  CogFile (py "scraper.py") (py "scraper") (py "/bot/cogs/scraper.py").
Definition init_py : cog_file :=
  CogFile (py "__init__.py") (py "__init__") (py "/bot/cogs/__init__.py").
Definition notes_txt : cog_file :=
  CogFile (py "notes.txt") (py "notes") (py "/bot/cogs/notes.txt").

(** Loading succeeds unless the extension is loaded already. *)
Definition load_once (loaded : list str) (extension : str)
    : option exception :=
  if bool_decide (extension ∈ loaded)
  then Some (LibraryError "ExtensionAlreadyLoaded") else None.
(** * Properties *)

(** ** The text operations on examples *)

Example strip_example : strip (py "  Rules 2024 ") = py "Rules 2024".
Proof. reflexivity. Qed.

Example split_document_id :
  split (py "DocumentID=") (py "https://x/d?DocumentID=ab&DocumentID=cd")
  = [py "https://x/d?"; py "ab&"; py "cd"].
Proof. reflexivity. Qed.

Example split_without_separator : split (py "DocumentID=") (py "https://x/d")
  = [py "https://x/d"].
Proof. reflexivity. Qed.

Example split_overlap : split (py "aa") (py "aaa") = [[]; py "a"].
Proof. reflexivity. Qed.

Example join_example : join (py ", ") [py "a"; py "b"; py "c"] = py "a, b, c".
Proof. reflexivity. Qed.

Example str_of_int_example :
  str_of_int <$> [0; 7; 42; -305]%Z = [py "0"; py "7"; py "42"; py "-305"].
Proof. reflexivity. Qed.

Example int_examples :
  int <$> [Some (py " 42 "); Some (py "-7"); Some (py "1_000"); Some [];
           Some (py "4 2"); Some (py "1__0"); None]
  = [Ok 42%Z; Ok (-7)%Z; Ok 1000%Z; Raise ValueError; Raise ValueError;
     Raise ValueError; Raise TypeError].
Proof. reflexivity. Qed.

Example filename_of_disposition_example :
  filename_of_disposition (py "attachment; filename=rules.pdf; size=3")
  = Some (py "rules.pdf").
Proof. reflexivity. Qed.

Example filename_of_disposition_none :
  filename_of_disposition (py "inline") = None.
Proof. reflexivity. Qed.

(** ** The diff loop as a classification *)

Section diff_loop.
Variables urls titles : gmap str pdf_entry.

Lemma compare_step_classify acc pdf :
    compare_step urls titles acc pdf =
      (acc.1 ++ (if decide (classify urls titles pdf = New) then [pdf] else []),
       acc.2 ++ (if decide (classify urls titles pdf = Modified) then [pdf] else [])).
  Proof.
    destruct acc as [n m]; unfold compare_step, classify; simpl.
    destruct (urls !! url pdf) as [p|].
    - destruct (file_changed pdf p); simpl; by rewrite !app_nil_r.
    - destruct (titles !! title pdf); simpl; by rewrite !app_nil_r.
  Qed.

Lemma foldl_compare_step current acc :
    foldl (compare_step urls titles) acc current =
      (acc.1 ++ filter (λ pdf, classify urls titles pdf = New) current,
       acc.2 ++ filter (λ pdf, classify urls titles pdf = Modified) current).
  Proof.
    revert acc; induction current as [|pdf current IH]; intros acc.
    - destruct acc; simpl; by rewrite !app_nil_r.
    - simpl foldl. rewrite IH, compare_step_classify; simpl.
      rewrite !filter_cons.
      do 2 case_decide; simpl; by rewrite <- ?app_assoc.
  Qed.
End diff_loop.

Lemma new_pdfs_filter previous current :
  new_pdfs previous current =
    filter (fun pdf => classify (previous_urls previous)
                                (previous_titles previous) pdf = New) current.
Proof. unfold new_pdfs, compare_pdfs. by rewrite foldl_compare_step. Qed.

Lemma modified_pdfs_filter previous current :
  modified_pdfs previous current =
    filter (fun pdf => classify (previous_urls previous)
                                (previous_titles previous) pdf = Modified) current.
Proof. unfold modified_pdfs, compare_pdfs. by rewrite foldl_compare_step. Qed.

(** ** The lookup dicts *)

Section index_by.
Context {A : Type} (key : A → str).

Let index (l : list A) : gmap str A :=
    foldl (λ m x, <[key x := x]> m) ∅ l.

Lemma index_snoc l x : index (l ++ [x]) = <[key x := x]> (index l).
  Proof. unfold index. by rewrite foldl_app. Qed.

Lemma index_lookup_Some l k x :
    index l !! k = Some x → x ∈ l ∧ key x = k.
  Proof.
    induction l as [|y l IH] using rev_ind; [done|].
    rewrite index_snoc, lookup_insert. case_decide as Hk.
    - intros [= ->]. split; [apply elem_of_app; right; apply list_elem_of_here | done].
    - intros Hl. destruct (IH Hl). split; [by apply elem_of_app; left | done].
  Qed.

Lemma index_lookup_None l k :
    index l !! k = None ↔ ∀ x, x ∈ l → key x ≠ k.
  Proof.
    induction l as [|y l IH] using rev_ind.
    - split; [intros _ x Hx; by apply elem_of_nil in Hx | done].
    - rewrite index_snoc, lookup_insert. case_decide as Hk.
      + split; [done|]. intros H.
        destruct (H y); [apply elem_of_app; right; apply list_elem_of_here | done].
      + rewrite IH. split.
        * intros H x [Hx | ->%list_elem_of_singleton]%elem_of_app; auto.
        * intros H x Hx. apply H, elem_of_app. by left.
  Qed.

Lemma index_lookup_is_Some l k :
    is_Some (index l !! k) ↔ ∃ x, x ∈ l ∧ key x = k.
  Proof.
    split.
    - intros [x Hx]. exists x. by apply index_lookup_Some.
    - intros (x & Hx & Hk). apply not_eq_None_Some. intros Hn.
      by apply (proj1 (index_lookup_None l k) Hn x).
  Qed.
End index_by.

Lemma previous_urls_Some previous u p :
  previous_urls previous !! u = Some p → p ∈ previous ∧ url p = u.
Proof. apply (index_lookup_Some url). Qed.

Lemma previous_urls_None previous u :
  previous_urls previous !! u = None ↔ ∀ q, q ∈ previous → url q ≠ u.
Proof. apply (index_lookup_None url). Qed.

Lemma previous_titles_None previous t :
  previous_titles previous !! t = None ↔ ∀ q, q ∈ previous → title q ≠ t.
Proof. apply (index_lookup_None title). Qed.

Lemma previous_titles_is_Some previous t :
  is_Some (previous_titles previous !! t) ↔ ∃ q, q ∈ previous ∧ title q = t.
Proof. apply (index_lookup_is_Some title). Qed.

(** ** The diff engine *)

Lemma elem_of_new_pdfs previous current pdf :
  pdf ∈ new_pdfs previous current ↔
    classify (previous_urls previous) (previous_titles previous) pdf = New
    ∧ pdf ∈ current.
Proof. by rewrite new_pdfs_filter, list_elem_of_filter. Qed.

Lemma elem_of_modified_pdfs previous current pdf :
  pdf ∈ modified_pdfs previous current ↔
    classify (previous_urls previous) (previous_titles previous) pdf = Modified
    ∧ pdf ∈ current.
Proof. by rewrite modified_pdfs_filter, list_elem_of_filter. Qed.

Lemma unchanged_in_neither previous current pdf :
  classify (previous_urls previous) (previous_titles previous) pdf = Unchanged →
  (pdf ∉ new_pdfs previous current) ∧ (pdf ∉ modified_pdfs previous current).
Proof.
  intros Hc. rewrite elem_of_new_pdfs, elem_of_modified_pdfs, Hc.
  split; intros [? _]; discriminate.
Qed.

(** C3. For every previous and current sequence, no entry is in both
    [new_pdfs] and [modified_pdfs], each of the two is a subsequence of
    [current_pdfs] in its order, and every entry of either is an entry of
    [current_pdfs]. *)
Theorem diff_outputs_disjoint_subsequences previous current :
  (∀ pdf, pdf ∈ new_pdfs previous current →
          pdf ∉ modified_pdfs previous current)
  ∧ new_pdfs previous current `sublist_of` current
  ∧ modified_pdfs previous current `sublist_of` current
  ∧ (∀ pdf, pdf ∈ new_pdfs previous current
            ∨ pdf ∈ modified_pdfs previous current → pdf ∈ current).
Proof.
  repeat split.
  - intros pdf [Hn _]%elem_of_new_pdfs [Hm _]%elem_of_modified_pdfs.
    congruence.
  - rewrite new_pdfs_filter. apply sublist_filter.
  - rewrite modified_pdfs_filter. apply sublist_filter.
  - intros pdf [[_ H]%elem_of_new_pdfs | [_ H]%elem_of_modified_pdfs]; exact H.
Qed.

(** C4. A current entry whose url is a key of the by-url dict and whose
    filename differs from the filename of the entry stored there is put in
    [modified_pdfs] (and not in [new_pdfs]), whatever the two document ids
    are. *)
Theorem filename_change_is_modified previous current pdf previous_pdf :
  pdf ∈ current →
  previous_urls previous !! url pdf = Some previous_pdf →
  filename pdf ≠ filename previous_pdf →
  pdf ∈ modified_pdfs previous current ∧ (pdf ∉ new_pdfs previous current).
Proof.
  intros Hin Hu Hf.
  assert (classify (previous_urls previous) (previous_titles previous) pdf
          = Modified) as Hc.
  { unfold classify, file_changed. rewrite Hu.
    by rewrite (bool_decide_eq_true_2 _ Hf). }
  rewrite elem_of_modified_pdfs, elem_of_new_pdfs, Hc.
  split; [done | intros [? _]; discriminate].
Qed.

(** C5. A current entry whose url is a key of the by-url dict, with the
    stored entry's filename, a different document id and a different title,
    is in neither output. *)
Theorem title_mismatch_blocks_document_id_rule previous current pdf previous_pdf :
  previous_urls previous !! url pdf = Some previous_pdf →
  filename pdf = filename previous_pdf →
  document_id pdf ≠ document_id previous_pdf →
  title pdf ≠ title previous_pdf →
  (pdf ∉ new_pdfs previous current) ∧ (pdf ∉ modified_pdfs previous current).
Proof.
  intros Hu Hf _ Ht. apply unchanged_in_neither.
  unfold classify, file_changed. rewrite Hu.
  rewrite (bool_decide_eq_false_2 (filename pdf ≠ _)) by tauto.
  by rewrite (bool_decide_eq_false_2 _ Ht), andb_false_r.
Qed.

Lemma same_file_unchanged previous pdf previous_pdf :
  previous_urls previous !! url pdf = Some previous_pdf →
  filename pdf = filename previous_pdf →
  document_id pdf = document_id previous_pdf →
  classify (previous_urls previous) (previous_titles previous) pdf = Unchanged.
Proof.
  intros Hu Hf Hd. unfold classify, file_changed. rewrite Hu.
  rewrite (bool_decide_eq_false_2 (filename pdf ≠ _)) by tauto.
  by rewrite (bool_decide_eq_false_2 (document_id pdf ≠ _)) by tauto.
Qed.

Lemma compare_pdfs_nil previous current :
  (∀ pdf, pdf ∈ current →
     classify (previous_urls previous) (previous_titles previous) pdf
     = Unchanged) →
  compare_pdfs previous current = ([], []).
Proof.
  intros H.
  rewrite (surjective_pairing (compare_pdfs previous current)).
  fold (new_pdfs previous current) (modified_pdfs previous current).
  f_equal; apply elem_of_nil_inv; intros pdf.
  - intros [Hc Hin]%elem_of_new_pdfs. rewrite (H pdf Hin) in Hc. discriminate.
  - intros [Hc Hin]%elem_of_modified_pdfs. rewrite (H pdf Hin) in Hc.
    discriminate.
Qed.

(** The second run over an unchanged page: the snapshot is the current
    list itself. It reports nothing as soon as entries that share a url
    share the filename and the document id. *)
Lemma second_run_silent current :
  (∀ pdf q, pdf ∈ current → q ∈ current → url pdf = url q →
     filename pdf = filename q ∧ document_id pdf = document_id q) →
  compare_pdfs current current = ([], []).
Proof.
  intros Hu. apply compare_pdfs_nil. intros pdf Hin.
  destruct (previous_urls current !! url pdf) as [p|] eqn:Hp.
  - destruct (previous_urls_Some _ _ _ Hp) as [Hpin Hpu].
    destruct (Hu pdf p Hin Hpin (eq_sym Hpu)).
    by apply (same_file_unchanged current pdf p).
  - exfalso. by apply (proj1 (previous_urls_None current (url pdf)) Hp pdf).
Qed.

Lemma NoDup_fmap_elem_inj {A B} (f : A → B) (l : list A) x y :
  NoDup (f <$> l) → x ∈ l → y ∈ l → f x = f y → x = y.
Proof.
  induction l as [|z l IH]; [by intros _ ?%elem_of_nil|].
  rewrite fmap_cons, NoDup_cons, !elem_of_cons.
  intros [Hz Hnd] [->|Hx] [->|Hy] Hf; auto.
  - destruct Hz. rewrite Hf. by apply list_elem_of_fmap_2.
  - destruct Hz. rewrite <- Hf. by apply list_elem_of_fmap_2.
Qed.

(** C6. A current entry whose url is a key of the by-url dict and whose
    filename and document id are those of the stored entry is in neither
    output. Hence, when this holds for every current entry, both outputs
    are empty; in particular on a second run, whose snapshot is the
    unchanged current list with its urls unique (as the data model has
    them). *)
Theorem unchanged_entry_is_silent previous current :
  (∀ pdf previous_pdf,
     pdf ∈ current →
     previous_urls previous !! url pdf = Some previous_pdf →
     filename pdf = filename previous_pdf →
     document_id pdf = document_id previous_pdf →
     (pdf ∉ new_pdfs previous current) ∧ (pdf ∉ modified_pdfs previous current))
  ∧ ((∀ pdf, pdf ∈ current →
        ∃ previous_pdf,
          previous_urls previous !! url pdf = Some previous_pdf
          ∧ filename pdf = filename previous_pdf
          ∧ document_id pdf = document_id previous_pdf) →
     new_pdfs previous current = [] ∧ modified_pdfs previous current = [])
  ∧ (NoDup (url <$> current) →
     new_pdfs current current = [] ∧ modified_pdfs current current = []).
Proof.
  split; [|split].
  - intros pdf p _ Hu Hf Hd. apply unchanged_in_neither.
    by apply (same_file_unchanged previous pdf p).
  - intros Hall. unfold new_pdfs, modified_pdfs.
    rewrite compare_pdfs_nil; [done|].
    intros pdf (p & Hu & Hf & Hd)%Hall.
    by apply (same_file_unchanged previous pdf p).
  - intros Hnd. unfold new_pdfs, modified_pdfs.
    rewrite second_run_silent; [done|].
    intros pdf q Hp Hq Hpq.
    by rewrite (NoDup_fmap_elem_inj url current pdf q Hnd Hp Hq Hpq).
Qed.

(** C7. A current entry whose url no snapshot entry has is put in
    [modified_pdfs] when some snapshot entry has its title, and in
    [new_pdfs] when none has. *)
Theorem unseen_url_modified_or_new previous current pdf :
  pdf ∈ current →
  (∀ q, q ∈ previous → url q ≠ url pdf) →
  ((∃ q, q ∈ previous ∧ title q = title pdf) →
     pdf ∈ modified_pdfs previous current ∧ (pdf ∉ new_pdfs previous current))
  ∧ ((∀ q, q ∈ previous → title q ≠ title pdf) →
     pdf ∈ new_pdfs previous current ∧ (pdf ∉ modified_pdfs previous current)).
Proof.
  intros Hin Hu%previous_urls_None.
  rewrite elem_of_new_pdfs, elem_of_modified_pdfs.
  unfold classify. rewrite Hu. split.
  - intros [p Hp]%previous_titles_is_Some. rewrite Hp.
    split; [done | intros [? _]; discriminate].
  - intros Ht%previous_titles_None. rewrite Ht.
    split; [done | intros [? _]; discriminate].
Qed.

(** *** The examples of the specification, as instances *)

Lemma filename_change_is_modified_witness :
  rules_renamed_file ∈ modified_pdfs [rules] [rules_renamed_file]
  ∧ (rules_renamed_file ∉ new_pdfs [rules] [rules_renamed_file]).
Proof.
  apply (filename_change_is_modified [rules] [rules_renamed_file]
           rules_renamed_file rules).
  - apply list_elem_of_here.
  - vm_compute. reflexivity.
  - discriminate.
Defined.

Lemma title_mismatch_blocks_document_id_rule_witness :
  (rules2 ∉ new_pdfs [rules] [rules2])
  ∧ (rules2 ∉ modified_pdfs [rules] [rules2]).
Proof.
  apply (title_mismatch_blocks_document_id_rule [rules] [rules2] rules2 rules).
  - vm_compute. reflexivity.
  - reflexivity.
  - discriminate.
  - discriminate.
Defined.

Lemma unchanged_entry_is_silent_witness :
  ((rules ∉ new_pdfs [rules] [rules]) ∧ (rules ∉ modified_pdfs [rules] [rules]))
  ∧ (new_pdfs [rules] [rules] = [] ∧ modified_pdfs [rules] [rules] = [])
  ∧ (new_pdfs [rules] [rules] = [] ∧ modified_pdfs [rules] [rules] = []).
Proof.
  destruct (unchanged_entry_is_silent [rules] [rules]) as (Hone & Hall & Hrun).
  split; [|split].
  - apply (Hone rules rules).
    + apply list_elem_of_here.
    + vm_compute. reflexivity.
    + reflexivity.
    + reflexivity.
  - apply Hall. intros pdf ->%list_elem_of_singleton. exists rules.
    split; [vm_compute; reflexivity|]. split; reflexivity.
  - apply Hrun. apply NoDup_singleton.
Defined.

Lemma unseen_url_modified_or_new_witness :
  (rules_2024 "u2" ∈ modified_pdfs [rules_2024 "u1"] [rules_2024 "u2"]
   ∧ (rules_2024 "u2" ∉ new_pdfs [rules_2024 "u1"] [rules_2024 "u2"]))
  ∧ (new_doc ∈ new_pdfs [] [new_doc] ∧ (new_doc ∉ modified_pdfs [] [new_doc])).
Proof.
  split.
  - apply (unseen_url_modified_or_new [rules_2024 "u1"] [rules_2024 "u2"]
             (rules_2024 "u2")).
    + apply list_elem_of_here.
    + intros q ->%list_elem_of_singleton. discriminate.
    + exists (rules_2024 "u1"). split; [apply list_elem_of_here | reflexivity].
  - apply (unseen_url_modified_or_new [] [new_doc] new_doc).
    + apply list_elem_of_here.
    + intros q Hq. by apply elem_of_nil in Hq.
    + intros q Hq. by apply elem_of_nil in Hq.
Defined.

(** Two entries with one url and different filenames: the second run
    reports the first of them, whose stored entry is the second. *)
Example second_run_with_shared_url :
  modified_pdfs [rules; rules_renamed_file] [rules; rules_renamed_file]
  = [rules].
Proof. vm_compute. reflexivity. Qed.

(** ** The JSON text: [loads] reads back what [dumps] wrote *)

Lemma iterencode_list level first more :
  iterencode level (JList (first :: more)) =
    91 :: newline_indent (S level) ++ iterencode (S level) first
    ++ list_rest level more.
Proof.
  cbn [iterencode]. do 3 f_equal.
  induction more as [|v more IH]; [done|].
  cbn [list_rest]. by rewrite IH.
Qed.

Lemma iterencode_dict level key first more :
  iterencode level (JDict ((key, first) :: more)) =
    123 :: newline_indent (S level) ++ encode_basestring_ascii key
    ++ py ": " ++ iterencode (S level) first ++ dict_rest level more.
Proof.
  cbn [iterencode]. do 5 f_equal.
  induction more as [|[k v] more IH]; [done|].
  cbn [dict_rest]. by rewrite IH.
Qed.

(** *** Escapes *)

Lemma hex_value_digit n : n < 16 → hex_value (hex_digit n) = Some n.
Proof.
  intros Hn. unfold hex_digit, hex_value.
  destruct (N.ltb_spec n 10).
  - replace ((48 <=? 48 + n) && (48 + n <=? 57)) with true
      by (symmetry; apply andb_true_intro; split; apply N.leb_le; lia).
    f_equal. lia.
  - replace ((48 <=? 87 + n) && (87 + n <=? 57)) with false
      by (symmetry; apply andb_false_intro2, N.leb_gt; lia).
    replace ((97 <=? 87 + n) && (87 + n <=? 102)) with true
      by (symmetry; apply andb_true_intro; split; apply N.leb_le; lia).
    f_equal. lia.
Qed.

Lemma decode_u_escape n :
  n < 0x10000 →
  decode_uXXXX (hex_digit (n / 4096)) (hex_digit ((n / 256) mod 16))
               (hex_digit ((n / 16) mod 16)) (hex_digit (n mod 16)) = Some n.
Proof.
  intros Hn. unfold decode_uXXXX.
  assert (n / 4096 < 16) by (apply N.Div0.div_lt_upper_bound; lia).
  pose proof (N.mod_lt n 16). pose proof (N.mod_lt (n / 16) 16).
  pose proof (N.mod_lt (n / 256) 16).
  rewrite !hex_value_digit by lia. f_equal.
  pose proof (N.div_mod' n 16). pose proof (N.div_mod' (n / 16) 16).
  pose proof (N.div_mod' (n / 256) 16).
  replace (n / 256) with (n / 16 / 16) in *
    by (rewrite N.Div0.div_div; reflexivity).
  replace (n / 4096) with (n / 16 / 16 / 16) in *
    by (rewrite !N.Div0.div_div; reflexivity).
  lia.
Qed.

Lemma land_shiftl_low a b n : b < 2 ^ n → N.land (N.shiftl a n) b = 0.
Proof.
  intros Hb. apply N.bits_inj_0. intros i. rewrite N.land_spec.
  destruct (N.lt_ge_cases i n) as [Hi|Hi].
  - by rewrite N.shiftl_spec_low.
  - assert (N.testbit b i = false) as ->; [|apply andb_false_r].
    apply N.testbit_false. rewrite N.div_small; [done|].
    eapply N.lt_le_trans; [exact Hb|]. by apply N.pow_le_mono_r.
Qed.

Lemma lor_shiftl_low a b n :
  b < 2 ^ n → N.lor (N.shiftl a n) b = a * 2 ^ n + b.
Proof.
  intros Hb. rewrite <- N.lxor_lor, <- N.add_nocarry_lxor
    by by apply land_shiftl_low.
  by rewrite N.shiftl_mul_pow2.
Qed.

(** The two halves of the surrogate pair of a code point from [0x10000]
    on. *)
Lemma surrogate_halves c :
  0x10000 ≤ c → c < 0x110000 →
  N.lor 0xd800 (N.land (N.shiftr (c - 0x10000) 10) 0x3ff)
    = 0xd800 + (c - 0x10000) / 1024
  ∧ N.lor 0xdc00 (N.land (c - 0x10000) 0x3ff)
    = 0xdc00 + (c - 0x10000) mod 1024.
Proof.
  intros Hlo Hhi. assert (c - 0x10000 < 0x100000) as Hn by lia.
  revert Hn. generalize (c - 0x10000). clear. intros n Hn.
  assert (n / 1024 < 1024) by (apply N.Div0.div_lt_upper_bound; lia).
  pose proof (N.mod_lt n 1024).
  change 0x3ff with (N.ones 10). rewrite !N.land_ones, N.shiftr_div_pow2.
  change (2 ^ 10) with 1024. rewrite (N.mod_small (n / 1024)) by done.
  change 0xd800 with (N.shiftl 54 10) at 1.
  change 0xdc00 with (N.shiftl 55 10) at 1.
  rewrite !lor_shiftl_low by (change (2 ^ 10) with 1024; lia).
  done.
Qed.

Lemma surrogate_join c :
  0x10000 ≤ c → c < 0x110000 →
  0x10000 + N.lor (N.shiftl (0xd800 + (c - 0x10000) / 1024 - 0xd800) 10)
                  (0xdc00 + (c - 0x10000) mod 1024 - 0xdc00) = c.
Proof.
  intros Hlo Hhi. assert (c = 0x10000 + (c - 0x10000)) as Hc by lia.
  revert Hc. generalize (c - 0x10000). intros n ->.
  pose proof (N.mod_lt n 1024). pose proof (N.div_mod' n 1024).
  generalize dependent (n / 1024). generalize dependent (n mod 1024).
  intros lo Hlo' hi Hn.
  replace (0xd800 + hi - 0xd800) with hi by lia.
  replace (0xdc00 + lo - 0xdc00) with lo by lia.
  rewrite lor_shiftl_low by (change (2 ^ 10) with 1024; lia).
  change (2 ^ 10) with 1024. lia.
Qed.

(** *** Strings *)

Lemma scanstring_u a b c d uni s3 :
  decode_uXXXX a b c d = Some uni →
  (is_high_surrogate uni = true → plain_after s3) →
  scanstring (92 :: 117 :: a :: b :: c :: d :: s3) = literal uni (scanstring s3).
Proof.
  intros Hd Hplain. simpl. rewrite Hd.
  destruct s3 as [|bs [|u s4]]; try done.
  destruct (is_high_surrogate uni); [|done].
  destruct (N.eqb_spec bs 92) as [->|]; [|done].
  destruct (N.eqb_spec u 117) as [->|]; [|done].
  destruct (Hplain eq_refl s4 eq_refl)
    as (a2 & b2 & c2 & d2 & s5 & uni2 & -> & Hd2 & Hlow).
  simpl. by rewrite Hd2, Hlow.
Qed.

Lemma scanstring_pair a b c d hi a2 b2 c2 d2 lo s5 :
  decode_uXXXX a b c d = Some hi → is_high_surrogate hi = true →
  decode_uXXXX a2 b2 c2 d2 = Some lo → is_low_surrogate lo = true →
  scanstring (92 :: 117 :: a :: b :: c :: d
              :: 92 :: 117 :: a2 :: b2 :: c2 :: d2 :: s5)
  = literal (0x10000 + N.lor (N.shiftl (hi - 0xd800) 10) (lo - 0xdc00))
            (scanstring s5).
Proof. intros Hd Hhi Hd2 Hlo. simpl. by rewrite Hd, Hhi, Hd2, Hlo. Qed.

Ltac special_char c n :=
  destruct (N.eqb_spec c n) as [->|?]; [try reflexivity|].

Lemma scanstring_escape_ascii c tail :
  c < 0x110000 →
  (is_high_surrogate c = true → plain_after tail) →
  scanstring (escape_ascii c ++ tail) = literal c (scanstring tail).
Proof.
  intros Hc Hplain. unfold escape_ascii.
  special_char c 34. special_char c 92. special_char c 8. special_char c 12.
  special_char c 10. special_char c 13. special_char c 9.
  destruct ((32 <=? c) && (c <=? 126)) eqn:Hprint.
  - apply andb_true_iff in Hprint as [?%N.leb_le ?%N.leb_le]. simpl.
    rewrite (proj2 (N.eqb_neq c 34)), (proj2 (N.eqb_neq c 92)) by done.
    by rewrite (proj2 (N.ltb_ge c 32)).
  - destruct (N.ltb_spec c 0x10000) as [Hbmp|Hbmp].
    + apply scanstring_u; [by apply decode_u_escape | done].
    + destruct (surrogate_halves c Hbmp Hc) as [-> ->].
      assert ((c - 0x10000) mod 1024 < 1024) as H by by apply N.mod_lt.
      assert ((c - 0x10000) / 1024 < 1024) as H0
        by (apply N.Div0.div_lt_upper_bound; lia).
      unfold u_escape. simpl app.
      rewrite (scanstring_pair _ _ _ _ (0xd800 + (c - 0x10000) / 1024)
                 _ _ _ _ (0xdc00 + (c - 0x10000) mod 1024)).
      * by rewrite surrogate_join.
      * apply decode_u_escape. revert H0. generalize ((c - 0x10000) / 1024).
        intros; lia.
      * unfold is_high_surrogate. apply andb_true_intro.
        revert H0. generalize ((c - 0x10000) / 1024).
        split; apply N.leb_le; lia.
      * apply decode_u_escape. revert H. generalize ((c - 0x10000) mod 1024).
        intros; lia.
      * unfold is_low_surrogate. apply andb_true_intro.
        revert H. generalize ((c - 0x10000) mod 1024).
        split; apply N.leb_le; lia.
Qed.

Ltac not_u_escape := intros ? [=].

Lemma plain_after_escape_ascii c tail :
  c < 0x110000 → is_low_surrogate c = false →
  plain_after (escape_ascii c ++ tail).
Proof.
  intros Hc Hlow. unfold escape_ascii.
  destruct (N.eqb_spec c 34); [not_u_escape|].
  destruct (N.eqb_spec c 92); [not_u_escape|].
  destruct (N.eqb_spec c 8); [not_u_escape|].
  destruct (N.eqb_spec c 12); [not_u_escape|].
  destruct (N.eqb_spec c 10); [not_u_escape|].
  destruct (N.eqb_spec c 13); [not_u_escape|].
  destruct (N.eqb_spec c 9); [not_u_escape|].
  destruct ((32 <=? c) && (c <=? 126)) eqn:Hprint.
  - intros s4 [= -> _]. done.
  - destruct (N.ltb_spec c 0x10000) as [Hbmp|Hbmp].
    + intros s4 [= <-]. do 5 eexists. exists c.
      split; [reflexivity|]. split; [by apply decode_u_escape | done].
    + destruct (surrogate_halves c Hbmp Hc) as [-> _].
      assert ((c - 0x10000) / 1024 < 1024) as H
        by (apply N.Div0.div_lt_upper_bound; lia).
      revert H. generalize ((c - 0x10000) / 1024). intros hi Hhi.
      intros s4 [= <-]. do 5 eexists. exists (0xd800 + hi).
      split; [reflexivity|]. split; [apply decode_u_escape; lia|].
      unfold is_low_surrogate. apply andb_false_intro1, N.leb_gt. lia.
Qed.

Lemma scanstring_escape_all s rest :
  str_ok s = true → scanstring (escape_all s ++ 34 :: rest) = Ok (s, rest).
Proof.
  induction s as [|c s IH]; [done|].
  intros [[Hc%N.ltb_lt Hpair%negb_true_iff]%andb_true_iff Hs]%andb_true_iff.
  cbn [escape_all]. rewrite <- app_assoc.
  rewrite scanstring_escape_ascii; [by rewrite IH| done |].
  intros Hhigh. rewrite Hhigh in Hpair. destruct s as [|c' s].
  - not_u_escape.
  - cbn [escape_all]. rewrite <- app_assoc.
    apply andb_true_iff in Hs as [[Hc'%N.ltb_lt _]%andb_true_iff _].
    by apply plain_after_escape_ascii.
Qed.

Lemma scanstring_encoded s rest :
  str_ok s = true →
  scanstring (escape_all s ++ [34] ++ rest) = Ok (s, rest).
Proof. apply scanstring_escape_all. Qed.

(** *** Values *)

Lemma skip_ws_stop c r : is_ws c = false → skip_ws (c :: r) = c :: r.
Proof. intros H. simpl. by rewrite H. Qed.

Lemma skip_ws_spaces n c r :
  is_ws c = false → skip_ws (repeat 32 n ++ c :: r) = c :: r.
Proof. intros H. induction n; [by apply skip_ws_stop | done]. Qed.

Lemma skip_ws_newline_indent level c r :
  is_ws c = false → skip_ws (newline_indent level ++ c :: r) = c :: r.
Proof. intros H. unfold newline_indent. simpl. by apply skip_ws_spaces. Qed.

Lemma opens_value_not_ws c : opens_value c → is_ws c = false.
Proof. by intros [->|[->|[->|[->|[->| ->]]]]]. Qed.

Lemma iterencode_head level o :
  ∃ c t, iterencode level o = c :: t ∧ opens_value c.
Proof.
  unfold opens_value.
  destruct o as [|[]|s|[|first more]|[|[key first] more]];
    cbn [iterencode]; eexists _, _; (split; [reflexivity|]); tauto.
Qed.

Lemma skip_ws_before_value level k o r :
  skip_ws (newline_indent k ++ iterencode level o ++ r) = iterencode level o ++ r.
Proof.
  destruct (iterencode_head level o) as (c & t & -> & Hc).
  apply skip_ws_newline_indent. by apply opens_value_not_ws.
Qed.

Lemma skip_ws_value level o r :
  skip_ws (iterencode level o ++ r) = iterencode level o ++ r.
Proof.
  destruct (iterencode_head level o) as (c & t & -> & Hc).
  apply skip_ws_stop. by apply opens_value_not_ws.
Qed.

Lemma length_newline_indent level : (0 < length (newline_indent level))%nat.
Proof. simpl. lia. Qed.

Lemma array_items_unfold fuel values s :
  array_items (S fuel) values s =
    '(value, r) ← scan_once fuel s;
    match skip_ws r with
    | c :: r1 =>
        if c =? 93 then Ok (JList (rev (value :: values)), r1)
        else if c =? 44
        then array_items fuel (value :: values) (skip_ws r1)
        else Raise JSONDecodeError
    | [] => Raise JSONDecodeError
    end.
Proof. reflexivity. Qed.

Lemma object_items_unfold fuel pairs s :
  object_items (S fuel) pairs s =
    '(key, r) ← scanstring s;
    match skip_ws r with
    | c :: r1 =>
        if c =? 58 then
          '(value, r2) ← scan_once fuel (skip_ws r1);
          match skip_ws r2 with
          | c2 :: r3 =>
              if c2 =? 125
              then Ok (JDict (dict_of_pairs (rev ((key, value) :: pairs))), r3)
              else if c2 =? 44 then
                match skip_ws r3 with
                | q :: r4 =>
                    if q =? 34
                    then object_items fuel ((key, value) :: pairs) r4
                    else Raise JSONDecodeError
                | [] => Raise JSONDecodeError
                end
              else Raise JSONDecodeError
          | [] => Raise JSONDecodeError
          end
        else Raise JSONDecodeError
    | [] => Raise JSONDecodeError
    end.
Proof. reflexivity. Qed.

Lemma array_items_list_rest level rest more :
  Forall reads_back more → forallb json_ok more = true →
  ∀ value values fuel,
    reads_back value → json_ok value = true →
    (length (iterencode (S level) value) + length (list_rest level more)
     ≤ fuel)%nat →
    array_items fuel values
      (iterencode (S level) value ++ list_rest level more ++ rest)
    = Ok (JList (rev values ++ value :: more), rest).
Proof.
  induction more as [|next more IH];
    intros Hall Hok value values fuel Hvalue Hvok Hfuel.
  - destruct fuel as [|fuel]; [simpl in Hfuel; lia|].
    rewrite array_items_unfold, Hvalue; [|done|simpl in Hfuel; lia].
    cbn [mbind result_bind list_rest]. rewrite <- app_assoc. cbn [app].
    rewrite skip_ws_newline_indent by done. done.
  - apply Forall_cons in Hall as [Hnext Hall].
    cbn [forallb] in Hok. apply andb_true_iff in Hok as [Hnok Hok].
    cbn [list_rest] in *. rewrite !length_cons, !length_app in Hfuel.
    destruct fuel as [|fuel]; [lia|].
    rewrite array_items_unfold, Hvalue; [|done|lia].
    cbn [mbind result_bind app]. rewrite skip_ws_stop by done.
    change (44 =? 93) with false. change (44 =? 44) with true. cbv iota.
    rewrite <- !app_assoc, skip_ws_before_value.
    rewrite IH; [|done..|pose proof (length_newline_indent (S level)); lia].
    cbn [rev]. by rewrite <- app_assoc.
Qed.

Lemma dict_of_pairs_snoc pairs key value :
  dict_of_pairs (pairs ++ [(key, value)])
  = dict_set key value (dict_of_pairs pairs).
Proof. unfold dict_of_pairs. by rewrite foldl_app. Qed.

Lemma dict_set_fresh key value d :
  key ∉ d.*1 → dict_set key value d = d ++ [(key, value)].
Proof.
  induction d as [|[k v] d IH]; [done|].
  rewrite fmap_cons, not_elem_of_cons. intros [Hne Hd]. cbn [dict_set].
  simpl in Hne. destruct (decide (k = key)); [congruence|]. by rewrite IH.
Qed.

Lemma dict_of_pairs_NoDup pairs :
  NoDup (pairs.*1) → dict_of_pairs pairs = pairs.
Proof.
  induction pairs as [|[key value] pairs IH] using rev_ind; [done|].
  rewrite fmap_app, NoDup_app. intros (Hnd & Hfresh & _).
  rewrite dict_of_pairs_snoc, IH by done. apply dict_set_fresh.
  intros Hin. apply (Hfresh key Hin). simpl. apply list_elem_of_here.
Qed.

Lemma object_items_dict_rest level rest more :
  Forall (λ kv, reads_back kv.2) more →
  forallb (λ kv, let '(k, v) := kv in str_ok k && json_ok v) more = true →
  ∀ key value pairs fuel,
    reads_back value → str_ok key = true → json_ok value = true →
    (length (iterencode (S level) value) + length (dict_rest level more)
     ≤ fuel)%nat →
    object_items fuel pairs
      (escape_all key ++ 34 :: 58 :: 32 :: iterencode (S level) value
       ++ dict_rest level more ++ rest)
    = Ok (JDict (dict_of_pairs (rev pairs ++ (key, value) :: more)), rest).
Proof.
  induction more as [|[key' next] more IH];
    intros Hall Hok key value pairs fuel Hvalue Hkey Hvok Hfuel.
  - destruct fuel as [|fuel]; [simpl in Hfuel; lia|].
    rewrite object_items_unfold, scanstring_escape_all by done.
    cbn [mbind result_bind].
    rewrite skip_ws_stop by done. change (58 =? 58) with true. cbv iota.
    change (skip_ws (32 :: ?s)) with (skip_ws s). rewrite skip_ws_value.
    rewrite Hvalue; [|done|simpl in Hfuel; lia].
    cbn [mbind result_bind dict_rest]. rewrite <- app_assoc. cbn [app].
    rewrite skip_ws_newline_indent by done. done.
  - apply Forall_cons in Hall as [Hnext Hall].
    cbn [forallb] in Hok.
    apply andb_true_iff in Hok as [[Hkey' Hnok]%andb_true_iff Hok].
    cbn [dict_rest] in *. unfold encode_basestring_ascii in *.
    change (py ": ") with [58; 32] in *.
    rewrite !length_cons, !length_app in Hfuel.
    destruct fuel as [|fuel]; [lia|].
    rewrite object_items_unfold, scanstring_escape_all by done.
    cbn [mbind result_bind].
    rewrite skip_ws_stop by done. change (58 =? 58) with true. cbv iota.
    change (skip_ws (32 :: ?s)) with (skip_ws s). rewrite skip_ws_value.
    rewrite Hvalue; [|done|lia].
    cbn [mbind result_bind app]. rewrite skip_ws_stop by done.
    change (44 =? 125) with false. change (44 =? 44) with true. cbv iota.
    rewrite <- !app_assoc. cbn [app]. rewrite <- !app_assoc. cbn [app].
    rewrite skip_ws_newline_indent by done.
    change (34 =? 34) with true. cbv iota.
    rewrite <- !app_assoc.
    rewrite IH; [|done..|pose proof (length_newline_indent (S level)); lia].
    cbn [rev]. by rewrite <- app_assoc.
Qed.

Lemma scan_once_string fuel s :
  scan_once (S fuel) (34 :: s) = '(x, r) ← scanstring s; Ok (JStr x, r).
Proof. reflexivity. Qed.

Lemma scan_once_array fuel s :
  scan_once (S fuel) (91 :: s) =
    match skip_ws s with
    | c1 :: r1 =>
        if c1 =? 93 then Ok (JList [], r1) else array_items fuel [] (c1 :: r1)
    | [] => Raise JSONDecodeError
    end.
Proof. reflexivity. Qed.

Lemma scan_once_object fuel s :
  scan_once (S fuel) (123 :: s) =
    match skip_ws s with
    | c1 :: r1 =>
        if c1 =? 125 then Ok (JDict [], r1)
        else if c1 =? 34 then object_items fuel [] r1
        else Raise JSONDecodeError
    | [] => Raise JSONDecodeError
    end.
Proof. reflexivity. Qed.

Lemma iterencode_nonempty level o : (0 < length (iterencode level o))%nat.
Proof.
  destruct (iterencode_head level o) as (c & t & -> & _). simpl. lia.
Qed.

Lemma scan_once_iterencode o : reads_back o.
Proof.
  induction o as [|b|s|l IH|items IH] using json_ind;
    intros Hok level fuel rest Hfuel;
    (destruct fuel as [|fuel];
     [match type of Hfuel with
      | (length (iterencode ?l ?o) ≤ _)%nat =>
          pose proof (iterencode_nonempty l o); lia
      end|]).
  - reflexivity.
  - by destruct b.
  - cbn [iterencode json_ok] in *. unfold encode_basestring_ascii.
    rewrite <- app_comm_cons, <- app_assoc. cbn [app].
    by rewrite scan_once_string, scanstring_escape_all.
  - destruct l as [|first more]; [reflexivity|].
    apply Forall_cons in IH as [Hfirst Hmore].
    cbn [json_ok forallb] in Hok. apply andb_true_iff in Hok as [Hfok Hmok].
    rewrite iterencode_list in *.
    rewrite <- app_comm_cons, <- !app_assoc.
    rewrite scan_once_array, skip_ws_before_value.
    destruct (iterencode_head (S level) first) as (c & t & Hc & Hopen).
    rewrite Hc at 1. cbn [app].
    replace (c =? 93) with false
      by (symmetry; apply N.eqb_neq; unfold opens_value in Hopen; lia).
    change (c :: t ++ ?r) with ((c :: t) ++ r). rewrite <- Hc.
    rewrite (array_items_list_rest level rest more Hmore Hmok first []);
      [done..|].
    rewrite length_cons, !length_app in Hfuel. lia.
  - destruct items as [|[key first] more]; [reflexivity|].
    apply Forall_cons in IH as [Hfirst Hmore].
    cbn [json_ok] in Hok.
    apply andb_true_iff in Hok as [Hnd%bool_decide_eq_true Hok].
    cbn [forallb] in Hok.
    apply andb_true_iff in Hok as [[Hkey Hfok]%andb_true_iff Hmok].
    rewrite iterencode_dict in *. unfold encode_basestring_ascii in *.
    change (py ": ") with [58; 32] in *.
    rewrite <- app_comm_cons, <- !app_assoc. cbn [app].
    rewrite <- !app_assoc. cbn [app].
    rewrite scan_once_object, skip_ws_newline_indent by done.
    change (34 =? 125) with false. change (34 =? 34) with true. cbv iota.
    rewrite (object_items_dict_rest level rest more Hmore Hmok key first []);
      [|done..|].
    + cbn [rev app]. by rewrite dict_of_pairs_NoDup.
    + rewrite !length_cons, !length_app in Hfuel. simpl in Hfuel. lia.
Qed.

(** [loads] reads back what [dumps] wrote, for every value of the model. *)
Lemma loads_dumps o : json_ok o = true → loads (dumps o) = Ok o.
Proof.
  intros Hok. unfold loads, dumps.
  destruct (iterencode_head 0 o) as (c & t & Hc & Hopen).
  assert (startswith [0xfeff] (iterencode 0 o) = false) as ->.
  { rewrite Hc. cbn [startswith]. apply andb_false_intro1, N.eqb_neq.
    unfold opens_value in Hopen. lia. }
  rewrite <- (app_nil_r (iterencode 0 o)) at 2.
  rewrite skip_ws_value, scan_once_iterencode; [done..|lia].
Qed.

(** *** The decoder raises nothing but [JSONDecodeError] *)

Lemma literal_raises c m e :
  literal c m = Raise e → m = Raise e.
Proof. by destruct m as [[? ?]| |]; intros [=]; subst. Qed.

Lemma scanstring_raises s e : scanstring s = Raise e → e = JSONDecodeError.
Proof.
  remember (length s) as n eqn:Hn. revert s Hn.
  induction (lt_wf n) as [n _ IH]. intros s -> H.
  assert (∀ s', (length s' < length s)%nat →
                scanstring s' = Raise e → e = JSONDecodeError) as Hrec
    by (intros s' Hlt; by apply (IH (length s') Hlt s')).
  clear IH. destruct s as [|c s1]; simpl in H; [congruence|].
  repeat (case_match; try congruence);
    apply literal_raises in H; subst; (eapply Hrec; [|eassumption]);
    simpl; lia.
Qed.

Lemma bind_raises {A B} (m : result A) (f : A → result B) e :
  m ≫= f = Raise e → m = Raise e ∨ ∃ a, m = Ok a ∧ f a = Raise e.
Proof.
  destruct m as [a|e'|]; cbn; intros H;
    [right; eauto | left; congruence | discriminate].
Qed.

Lemma scan_raises fuel :
  (∀ s e, scan_once fuel s = Raise e → e = JSONDecodeError)
  ∧ (∀ values s e, array_items fuel values s = Raise e → e = JSONDecodeError)
  ∧ (∀ pairs s e, object_items fuel pairs s = Raise e → e = JSONDecodeError).
Proof.
  induction fuel as [|fuel (IHscan & IHarray & IHobject)]; [done|].
  repeat split.
  - intros s e H. simpl in H.
    repeat (case_match; try congruence); eauto.
    apply bind_raises in H as [H|([x r] & _ & [=])].
    by apply scanstring_raises in H.
  - intros values s e H. rewrite array_items_unfold in H.
    apply bind_raises in H as [H|([value r] & _ & H)]; [eauto|].
    repeat (case_match; try congruence); eauto.
  - intros pairs s e H. rewrite object_items_unfold in H.
    apply bind_raises in H as [H|([key r] & _ & H)];
      [by apply scanstring_raises in H|].
    repeat (case_match; try congruence).
    apply bind_raises in H as [H|([value r2] & _ & H)]; [eauto|].
    repeat (case_match; try congruence); eauto.
Qed.

Lemma loads_raises s e : loads s = Raise e → e = JSONDecodeError.
Proof.
  unfold loads. intros Hraise. case_match; [congruence|].
  apply bind_raises in Hraise as [Hraise|([obj r] & _ & Hraise)].
  - by apply (proj1 (scan_raises _)) in Hraise.
  - repeat (case_match; try congruence).
Qed.

(** ** The snapshot store *)

Lemma load_data_unchanged st : (load_data st).2 = st.
Proof.
  unfold load_data, try_except, mbind, M_bind, read_text, lift.
  destruct (data_file st) as [|e|text]; simpl.
  - done.
  - by destruct (bool_decide _).
  - destruct (loads text) as [?|e|]; simpl; [done| |done].
    by destruct (bool_decide _).
Qed.

Lemma load_data_Missing st :
  data_file st = Missing → load_data st = (Ok (JList []), st).
Proof.
  intros H. unfold load_data, try_except, mbind, M_bind, read_text.
  by rewrite H.
Qed.

Lemma load_data_Unreadable st e :
  data_file st = Unreadable e →
  load_data st = (if decide (e = FileNotFoundError) then Ok (JList [])
                  else Raise e, st).
Proof.
  intros H. unfold load_data, try_except, mbind, M_bind, read_text.
  rewrite H. simpl. by destruct (decide _); simplify_eq/=;
    rewrite ?bool_decide_eq_true_2, ?bool_decide_eq_false_2 by done.
Qed.

Lemma load_data_Holds st text :
  data_file st = Holds text → load_data st = (loads text, st).
Proof.
  intros H. unfold load_data, try_except, mbind, M_bind, read_text, lift.
  rewrite H. destruct (loads text) as [o|e|] eqn:Hl; [done| |done].
  apply loads_raises in Hl as ->. done.
Qed.

Lemma cycle_stops_at_load w st e :
  load_data st = (Raise e, st) → check_for_updates w st = (Raise e, st).
Proof.
  intros H. unfold check_for_updates. unfold mbind at 1, M_bind at 1.
  by rewrite H.
Qed.

(** C8. When the snapshot file does not exist, [load_data] returns the
    empty list and raises nothing. Any other failure to read it (opening
    or decoding raises an exception other than [FileNotFoundError], or the
    text is not JSON) is raised by [load_data] and by the cycle, which
    ends there with the file, the log and the messages as they were. *)
Theorem load_data_catches_file_not_found_only w st :
  (data_file st = Missing → load_data st = (Ok (JList []), st))
  ∧ (∀ e, e ≠ FileNotFoundError →
       data_file st = Unreadable e
       ∨ (∃ text, data_file st = Holds text ∧ loads text = Raise e) →
       load_data st = (Raise e, st)
       ∧ check_for_updates w st = (Raise e, st)).
Proof.
  split; [apply load_data_Missing|].
  intros e He Hfile.
  assert (load_data st = (Raise e, st)) as Hload.
  { destruct Hfile as [Hfile|(text & Hfile & Hloads)].
    - rewrite (load_data_Unreadable st e Hfile). by destruct (decide _).
    - by rewrite (load_data_Holds st text Hfile), Hloads. }
  split; [done | by apply cycle_stops_at_load].
Qed.

Lemma load_data_catches_file_not_found_only_witness :
  load_data (start Missing) = (Ok (JList []), start Missing)
  ∧ (load_data (start (Unreadable (OSError "PermissionError")))
     = (Raise (OSError "PermissionError"),
        start (Unreadable (OSError "PermissionError")))
     ∧ check_for_updates (quiet_world page_one_document (env None None))
         (start (Unreadable (OSError "PermissionError")))
       = (Raise (OSError "PermissionError"),
          start (Unreadable (OSError "PermissionError"))))
  ∧ (load_data (start (Holds (py "[{")))
     = (Raise JSONDecodeError, start (Holds (py "[{")))
     ∧ check_for_updates (quiet_world page_one_document (env None None))
         (start (Holds (py "[{")))
       = (Raise JSONDecodeError, start (Holds (py "[{")))).
Proof.
  split; [|split].
  - apply (load_data_catches_file_not_found_only
             (quiet_world page_one_document (env None None)) (start Missing)).
    reflexivity.
  - apply (load_data_catches_file_not_found_only
             (quiet_world page_one_document (env None None))
             (start (Unreadable (OSError "PermissionError")))).
    + discriminate.
    + left. reflexivity.
  - apply (load_data_catches_file_not_found_only
             (quiet_world page_one_document (env None None))
             (start (Holds (py "[{")))).
    + discriminate.
    + right. exists (py "[{"). split; reflexivity.
Defined.

Lemma load_data_after_save w data st st' :
  json_ok data = true →
  save_data w data st = (Ok (), st') →
  load_data st' = (Ok data, st').
Proof.
  intros Hok Hsave. unfold save_data in Hsave.
  destruct (write_error w); [discriminate|]. injection Hsave as <-.
  rewrite (load_data_Holds _ (dumps data)) by done.
  by rewrite loads_dumps.
Qed.

(** C9. Once [save_data] has written a value built from [None], [bool],
    [str], lists and dicts (strings without a surrogate pair, dict keys
    distinct; in particular a list of records with the keys [title],
    [url], [document_id], [filename]), [load_data] returns that value: the
    same items in the same order, every record with its keys and the
    values they had. *)
Theorem save_data_then_load_data w data st st' :
  json_ok data = true →
  save_data w data st = (Ok (), st') →
  load_data st' = (Ok data, st').
Proof. apply load_data_after_save. Qed.

Lemma save_data_then_load_data_witness :
  load_data
    (Effects (Holds (dumps (json_of_pdfs [rules; rules2]))) [] [] 0)
  = (Ok (json_of_pdfs [rules; rules2]),
     Effects (Holds (dumps (json_of_pdfs [rules; rules2]))) [] [] 0).
Proof.
  apply (save_data_then_load_data (quiet_world [] (env None None))
           (json_of_pdfs [rules; rules2]) (start Missing)).
  - vm_compute. reflexivity.
  - reflexivity.
Defined.

Lemma record_dict_ok title url document_id filename :
  json_ok title = true → json_ok url = true →
  json_ok document_id = true → json_ok filename = true →
  json_ok (record_dict title url document_id filename) = true.
Proof.
  intros Ht Hu Hd Hf. unfold record_dict. cbn [json_ok forallb].
  rewrite Ht, Hu, Hd, Hf. by vm_compute.
Qed.

Lemma json_of_pdf_ok pdf : pdf_ok pdf = true → json_ok (json_of_pdf pdf) = true.
Proof.
  unfold pdf_ok.
  intros [[[Ht Hu]%andb_true_iff Hd]%andb_true_iff Hf]%andb_true_iff.
  assert (∀ x, from_option str_ok true x = true →
               json_ok (json_of_option x) = true) as Hopt
    by by intros [s|].
  apply record_dict_ok; auto.
Qed.

Lemma json_of_pdfs_ok pdfs :
  forallb pdf_ok pdfs = true → json_ok (json_of_pdfs pdfs) = true.
Proof.
  unfold json_of_pdfs. cbn [json_ok]. induction pdfs as [|pdf pdfs IH]; [done|].
  cbn [forallb fmap list_fmap]. intros [Hp Hps]%andb_true_iff.
  by rewrite json_of_pdf_ok, IH.
Qed.

Lemma pdf_of_json_of_pdf pdf : pdf_of_json (json_of_pdf pdf) = Ok pdf.
Proof. by destruct pdf as [t u [d|] [f|]]. Qed.

Lemma pdfs_of_json_of_pdfs pdfs : pdfs_of_json (json_of_pdfs pdfs) = Ok pdfs.
Proof.
  unfold json_of_pdfs, pdfs_of_json. induction pdfs as [|pdf pdfs IH]; [done|].
  cbn [fmap list_fmap pdfs_of_list]. fold (fmap json_of_pdf pdfs).
  by rewrite pdf_of_json_of_pdf, IH.
Qed.

(** The records of a saved snapshot are the records the next cycle
    compares with. *)
Corollary saved_records_are_loaded w pdfs st st' :
  forallb pdf_ok pdfs = true →
  save_data w (json_of_pdfs pdfs) st = (Ok (), st') →
  (previous ← load_data; lift (pdfs_of_json previous)) st' = (Ok pdfs, st').
Proof.
  intros Hok Hsave. unfold mbind, M_bind.
  rewrite (load_data_after_save w _ st st') by by try apply json_of_pdfs_ok.
  unfold lift. by rewrite pdfs_of_json_of_pdfs.
Qed.

(** A high surrogate followed by a low surrogate is not carried
    unchanged: the two escapes are read back as one code point. *)
Example surrogate_pair_is_merged :
  loads (dumps (JStr [0xd83d; 0xde00])) = Ok (JStr [0x1f600]).
Proof. reflexivity. Qed.

(** ** The cycle *)

Lemma bind_keeps_file {A B} (m : M A) (f : A → M B) :
  keeps_file m → (∀ a, keeps_file (f a)) → keeps_file (m ≫= f).
Proof.
  intros Hm Hf st. unfold mbind, M_bind. specialize (Hm st).
  destruct (m st) as [[a|e|] st1]; simpl in *; [|done..].
  by rewrite Hf.
Qed.

Lemma bind_never_returns {A B} (m : M A) (f : A → M B) :
  (∀ a, never_returns (f a)) → never_returns (m ≫= f).
Proof.
  intros Hf st b. unfold mbind, M_bind.
  destruct (m st) as [[a|e|] st1]; simpl; [apply Hf|done..].
Qed.

Lemma lift_keeps_file {A} (r : result A) : keeps_file (lift r).
Proof. done. Qed.

Lemma logger_keeps_file l message : keeps_file (logger l message).
Proof. done. Qed.

Lemma load_data_keeps_file : keeps_file load_data.
Proof. intros st. by rewrite load_data_unchanged. Qed.

Lemma scrape_pdfs_keeps_file w : keeps_file (scrape_pdfs w).
Proof.
  unfold scrape_pdfs. apply bind_keeps_file; [done|]. intros soup.
  destruct (find_with_next_siblings _ soup) as [[ruleset_row siblings]|].
  - apply bind_keeps_file; done.
  - apply bind_keeps_file; done.
Qed.

Lemma get_metadata_keeps_file w url : keeps_file (get_metadata w url).
Proof.
  intros st. unfold get_metadata.
  destruct (head w (requests st) url) as [e message|[[|c disposition]|]];
    [|done..].
  by destruct (is_Exception e).
Qed.

Lemma attach_filenames_keeps_file w links :
  keeps_file (attach_filenames w links).
Proof.
  induction links as [|l links IH]; [done|]. cbn [attach_filenames].
  apply bind_keeps_file; [apply get_metadata_keeps_file|]. intros filename.
  apply bind_keeps_file; done.
Qed.

(** Up to line 104 the cycle does not touch the snapshot file; with
    [CHANNEL_ID] unset, [int(None)] at line 105 ends it. *)
Lemma unset_channel_id_ends_cycle w :
  getenv w (py "CHANNEL_ID") = None →
  keeps_file (check_for_updates w) ∧ never_returns (check_for_updates w).
Proof.
  intros Henv. unfold check_for_updates. rewrite Henv. split.
  - apply bind_keeps_file; [apply load_data_keeps_file|]. intros previous.
    apply bind_keeps_file; [apply scrape_pdfs_keeps_file|]. intros scraped.
    apply bind_keeps_file; [done|]. intros _.
    apply bind_keeps_file;
      [destruct scraped; [apply attach_filenames_keeps_file | done]|].
    intros current. apply bind_keeps_file; [done|]. intros previous_pdfs.
    destruct (compare_pdfs _ _). by intros st.
  - do 5 (apply bind_never_returns; intros ?).
    destruct (compare_pdfs _ _). by intros st u.
Qed.

(** Without the marker row [scrape_pdfs] logs a warning and returns
    [None]; the loop of line 79 over [None] then raises [TypeError], and
    the cycle ends before line 136. *)
Lemma marker_not_found w soup st :
  page w = Ok soup →
  find_with_next_siblings is_ruleset_row soup = None →
  scrape_pdfs w st
  = (Ok None,
     Effects (data_file st) (log st ++ [(WARNING, py "Ruleset row not found")])
             (sent st) (requests st))
  ∧ (∀ previous, load_data st = (Ok previous, st) →
       check_for_updates w st
       = (Raise TypeError,
          Effects (data_file st)
                  (log st ++ [(WARNING, py "Ruleset row not found")])
                  (sent st) 0)).
Proof.
  intros Hpage Hfind.
  assert (scrape_pdfs w st
          = (Ok None,
             Effects (data_file st)
                     (log st ++ [(WARNING, py "Ruleset row not found")])
                     (sent st) (requests st))) as Hscrape.
  { unfold scrape_pdfs, mbind, M_bind, lift. by rewrite Hpage, Hfind. }
  split; [done|]. intros previous Hload.
  unfold check_for_updates. unfold mbind at 1, M_bind at 1. rewrite Hload.
  unfold mbind at 1, M_bind at 1. by rewrite Hscrape.
Qed.

(** C1. On a page without the marker row, with an earlier snapshot on
    disk, [scrape_pdfs] returns [None], not an empty list, and the cycle
    raises [TypeError]; the snapshot file still holds the earlier
    snapshot. *)
Theorem missing_marker_row_ends_cycle :
  let w := quiet_world page_without_marker ids in
  scrape_pdfs w (start old_snapshot)
  = (Ok None,
     Effects old_snapshot [(WARNING, py "Ruleset row not found")] [] 0)
  ∧ check_for_updates w (start old_snapshot)
    = (Raise TypeError,
       Effects old_snapshot [(WARNING, py "Ruleset row not found")] [] 0).
Proof. vm_compute. done. Qed.

(** A cycle with both identifiers set and a channel that resolves: the
    new document is announced and the snapshot is replaced. *)
Example cycle_announces_and_saves :
  check_for_updates (quiet_world page_one_document ids) (start Missing)
  = (Ok (),
     Effects (Holds (dumps (json_of_pdfs [rules_2024_entry])))
             [(INFO, py "--- Found 1 new documents in 'Ruleset and Resources': ---")]
             [(42%Z, new_message 7 [rules_2024_entry])] 1).
Proof. vm_compute. done. Qed.

(** C2. The same page and snapshot file, with the configuration or the
    channel missing: with [CHANNEL_ID] unset the cycle raises [TypeError];
    with [CHANNEL_ID] set to 0 it logs the warning and returns; with no
    channel resolved it returns. In all three the snapshot file is not
    replaced. *)
Theorem missing_configuration_skips_save :
  check_for_updates
    (quiet_world page_one_document (env None (Some (py "7")))) (start Missing)
  = (Raise TypeError, Effects Missing [] [] 1)
  ∧ check_for_updates
      (quiet_world page_one_document (env (Some (py "0")) (Some (py "7"))))
      (start Missing)
    = (Ok (),
       Effects Missing
         [(WARNING,
           py "CHANNEL_ID or ROLE_ID not set in env file. Skipping announcements.")]
         [] 1)
  ∧ check_for_updates (world_without_channel page_one_document ids)
      (start Missing)
    = (Ok (), Effects Missing [] [] 1).
Proof. vm_compute. done. Qed.

(** C10. There are pages with the marker row and one collected row after
    it, the row without any cell in one and with a first cell that has no
    string child in the other, on which [scrape_pdfs] raises
    [AttributeError] (whatever the rest of the world and the effects so
    far): the row is not skipped and no list is returned. *)
Theorem scrape_pdfs_raises_on_row_without_title :
  ∃ soup1 soup2 marker row1 row2 cell,
    find_with_next_siblings is_ruleset_row soup1 = Some (marker, [row1])
    ∧ find_with_next_siblings is_ruleset_row soup2 = Some (marker, [row2])
    ∧ (∃ t, rows_until_folder (find_next_siblings (py "tr") [row1]) = [t]
            ∧ find (py "td") [] t = None)
    ∧ (∃ t, rows_until_folder (find_next_siblings (py "tr") [row2]) = [t]
            ∧ find (py "td") [] t = Some cell
            ∧ find_text (contents cell) = None)
    ∧ ∀ head getenv get_channel write_error st,
        scrape_pdfs
          (World (Ok soup1) head getenv get_channel write_error) st
        = (Raise AttributeError, st)
        ∧ scrape_pdfs
            (World (Ok soup2) head getenv get_channel write_error) st
          = (Raise AttributeError, st).
Proof.
  exists page_row_without_cell, page_row_without_text.
  eexists _, row_without_cell, row_without_text, _.
  split; [by vm_compute|]. split; [by vm_compute|].
  split; [eexists; split; by vm_compute|].
  split; [eexists; split; [|split]; by vm_compute|].
  intros head getenv get_channel write_error [f l s n]. by vm_compute.
Qed.

(** ** Entries of one scrape that share a url *)

Lemma scrape_row_document_id row l :
  scrape_row row = Ok (Some l) →
  link_document_id l = document_id_of (link_url l).
Proof.
  unfold scrape_row, mbind, result_bind. intros H.
  repeat (case_match; try discriminate); by simplify_eq.
Qed.

Lemma scrape_rows_document_id rows links :
  scrape_rows rows = Ok links →
  Forall (λ l, link_document_id l = document_id_of (link_url l)) links.
Proof.
  revert links. induction rows as [|row rows IH]; intros links.
  - by intros [= <-].
  - cbn [scrape_rows]. unfold mbind, result_bind.
    destruct (scrape_row row) as [entry| |] eqn:Hrow; [|done..].
    destruct (scrape_rows rows) as [links'| |]; [|done..].
    intros [= <-]. specialize (IH links' eq_refl).
    destruct entry as [l|]; [|done]. apply Forall_cons. split; [|done].
    by apply (scrape_row_document_id row).
Qed.

Lemma get_metadata_filename w url st filename st' :
  (∀ n u, head w n u = head w 0 u) →
  get_metadata w url st = (Ok filename, st') →
  filename = filename_at w url.
Proof.
  intros Hhead. unfold get_metadata, filename_at. rewrite Hhead.
  destruct (head w 0 url) as [e message|[[|c disposition]|]];
    [|by intros [= <- _]..].
  destruct (is_Exception e); [|done]. by intros [= <- _].
Qed.

Lemma attach_filenames_entries w links :
  (∀ n u, head w n u = head w 0 u) →
  Forall (λ l, link_document_id l = document_id_of (link_url l)) links →
  ∀ st current st',
    attach_filenames w links st = (Ok current, st') →
    Forall (λ pdf, filename pdf = filename_at w (url pdf)
                   ∧ document_id pdf = document_id_of (url pdf)) current.
Proof.
  intros Hhead. induction 1 as [|l links Hl _ IH]; intros st current st'.
  - by intros [= <- _].
  - cbn [attach_filenames]. unfold mbind at 1, M_bind at 1.
    destruct (get_metadata w (link_url l) st) as [[f| |] st1] eqn:Hf; [|done..].
    apply get_metadata_filename in Hf as ->; [|done].
    unfold mbind, M_bind.
    destruct (attach_filenames w links st1) as [[pdfs| |] st2] eqn:Hpdfs;
      [|done..].
    intros [= <- _]. apply Forall_cons. split; [done|]. by eapply IH.
Qed.

(** When the answer to a HEAD request depends on the url only, the
    entries of one scrape that share a url share filename and document
    id, so a second run over the same entries reports nothing, whether
    the urls are unique or not. *)
Lemma second_run_of_one_scrape w rows links st current st' :
  (∀ n u, head w n u = head w 0 u) →
  scrape_rows rows = Ok links →
  attach_filenames w links st = (Ok current, st') →
  compare_pdfs current current = ([], []).
Proof.
  intros Hhead Hlinks%scrape_rows_document_id Hcurrent.
  pose proof (attach_filenames_entries w links Hhead Hlinks _ _ _ Hcurrent)
    as Hall.
  rewrite Forall_forall in Hall. apply second_run_silent.
  intros pdf q [Hpf Hpd]%Hall [Hqf Hqd]%Hall Hu.
  rewrite Hpf, Hpd, Hqf, Hqd, Hu. done.
Qed.

(** * Further properties *)

(** ** The diff loop *)

Lemma classify_empty pdf : classify ∅ ∅ pdf = New.
Proof. unfold classify. by rewrite !lookup_empty. Qed.

Lemma filter_all {A} (P : A → Prop) `{∀ x, Decision (P x)} (l : list A) :
  (∀ x, x ∈ l → P x) → filter P l = l.
Proof.
  induction l as [|x l IH]; [done|]. intros Hall.
  rewrite filter_cons_True by (apply Hall, list_elem_of_here).
  rewrite IH; [done|]. intros y Hy. apply Hall. by apply list_elem_of_further.
Qed.

(** X1. On a first run, with an empty snapshot, every current entry is
    new, in the order of the page, and none is modified. *)
Theorem first_run_reports_everything_new current :
  compare_pdfs [] current = (current, []).
Proof.
  rewrite (surjective_pairing (compare_pdfs [] current)).
  fold (new_pdfs [] current) (modified_pdfs [] current).
  rewrite new_pdfs_filter, modified_pdfs_filter. f_equal.
  - apply filter_all. intros pdf _. apply classify_empty.
  - apply elem_of_nil_inv. intros pdf [Hc _]%list_elem_of_filter.
    change (previous_urls []) with (∅ : gmap str pdf_entry) in Hc.
    change (previous_titles []) with (∅ : gmap str pdf_entry) in Hc.
    by rewrite classify_empty in Hc.
Qed.

(** X2. A current entry that is reported in neither output has its url
    in the snapshot, and the entry stored for that url has the same
    filename and either the same document id or another title. *)
Theorem silent_entry_is_matched previous current pdf :
  pdf ∈ current →
  pdf ∉ new_pdfs previous current →
  pdf ∉ modified_pdfs previous current →
  ∃ previous_pdf,
    previous_pdf ∈ previous
    ∧ url previous_pdf = url pdf
    ∧ previous_urls previous !! url pdf = Some previous_pdf
    ∧ filename pdf = filename previous_pdf
    ∧ (document_id pdf = document_id previous_pdf
       ∨ title pdf ≠ title previous_pdf).
Proof.
  intros Hin Hnew Hmod.
  rewrite elem_of_new_pdfs in Hnew. rewrite elem_of_modified_pdfs in Hmod.
  unfold classify in *.
  destruct (previous_urls previous !! url pdf) as [p|] eqn:Hp.
  - destruct (previous_urls_Some _ _ _ Hp) as [Hpin Hpu].
    exists p. do 3 (split; [done|]).
    unfold file_changed in Hmod.
    destruct (decide (filename pdf = filename p)) as [Hf|Hf];
      [|by rewrite (bool_decide_eq_true_2 _ Hf) in Hmod; destruct Hmod].
    split; [done|].
    destruct (decide (document_id pdf = document_id p)) as [Hd|Hd]; [by left|].
    destruct (decide (title pdf = title p)) as [Ht|Ht]; [|by right].
    rewrite (bool_decide_eq_true_2 _ Hd), (bool_decide_eq_true_2 _ Ht),
      orb_true_r in Hmod.
    by destruct Hmod.
  - destruct (previous_titles previous !! title pdf);
      [by destruct Hmod | by destruct Hnew].
Qed.

Lemma silent_entry_is_matched_witness :
  ∃ previous_pdf,
    previous_pdf ∈ [rules]
    ∧ url previous_pdf = url rules2
    ∧ previous_urls [rules] !! url rules2 = Some previous_pdf
    ∧ filename rules2 = filename previous_pdf
    ∧ (document_id rules2 = document_id previous_pdf
       ∨ title rules2 ≠ title previous_pdf).
Proof.
  apply (silent_entry_is_matched [rules] [rules2] rules2).
  - apply list_elem_of_here.
  - vm_compute. intros H. inversion H.
  - vm_compute. intros H. inversion H.
Defined.

(** X3. A current entry whose url is in the snapshot, with the title of
    the stored entry and a different document id, is modified, whatever
    the filenames are. *)
Theorem document_id_change_is_modified previous current pdf previous_pdf :
  pdf ∈ current →
  previous_urls previous !! url pdf = Some previous_pdf →
  document_id pdf ≠ document_id previous_pdf →
  title pdf = title previous_pdf →
  pdf ∈ modified_pdfs previous current ∧ (pdf ∉ new_pdfs previous current).
Proof.
  intros Hin Hu Hd Ht.
  assert (classify (previous_urls previous) (previous_titles previous) pdf
          = Modified) as Hc.
  { unfold classify, file_changed. rewrite Hu.
    by rewrite (bool_decide_eq_true_2 _ Hd), (bool_decide_eq_true_2 _ Ht),
      orb_true_r. }
  rewrite elem_of_modified_pdfs, elem_of_new_pdfs, Hc.
  split; [done | intros [? _]; discriminate].
Qed.

Lemma document_id_change_is_modified_witness :
  rules_new_id ∈ modified_pdfs [rules] [rules_new_id]
  ∧ (rules_new_id ∉ new_pdfs [rules] [rules_new_id]).
Proof.
  apply (document_id_change_is_modified [rules] [rules_new_id]
           rules_new_id rules).
  - apply list_elem_of_here.
  - vm_compute. reflexivity.
  - discriminate.
  - reflexivity.
Defined.

(** X4. When the document ids of the current entry and of the snapshot
    entries are the ones line 195 reads off their urls, the document id
    rule never fires: an entry whose url is in the snapshot is modified
    exactly when its filename differs from the stored one. *)
Theorem derived_document_id_rule_is_idle previous current pdf previous_pdf :
  (∀ q, q ∈ previous → document_id q = document_id_of (url q)) →
  document_id pdf = document_id_of (url pdf) →
  pdf ∈ current →
  previous_urls previous !! url pdf = Some previous_pdf →
  pdf ∈ modified_pdfs previous current ↔ filename pdf ≠ filename previous_pdf.
Proof.
  intros Hprev Hpdf Hin Hu.
  destruct (previous_urls_Some _ _ _ Hu) as [Hpin Hpu].
  assert (document_id pdf = document_id previous_pdf) as Hd
    by by rewrite Hpdf, (Hprev _ Hpin), Hpu.
  rewrite elem_of_modified_pdfs. unfold classify, file_changed. rewrite Hu.
  rewrite (bool_decide_eq_false_2 (document_id pdf ≠ _)) by tauto.
  rewrite andb_false_l, orb_false_r.
  case_bool_decide; split; try done; by intros [? _].
Qed.

Lemma derived_document_id_rule_is_idle_witness :
  rules_2024_renamed ∈ modified_pdfs [rules_2024_entry] [rules_2024_renamed]
  ↔ filename rules_2024_renamed ≠ filename rules_2024_entry.
Proof.
  apply (derived_document_id_rule_is_idle [rules_2024_entry]
           [rules_2024_renamed] rules_2024_renamed rules_2024_entry).
  - intros q ->%list_elem_of_singleton. vm_compute. reflexivity.
  - vm_compute. reflexivity.
  - apply list_elem_of_here.
  - vm_compute. reflexivity.
Defined.

Lemma index_last_wins {A} (key : A → str) (l1 l2 : list A) (x : A) :
  (∀ y, y ∈ l2 → key y ≠ key x) →
  foldl (λ (m : gmap str A) y, <[key y := y]> m) ∅ (l1 ++ x :: l2) !! key x
  = Some x.
Proof.
  induction l2 as [|y l2 IH] using rev_ind; intros Hl2.
  - by rewrite (index_snoc key), lookup_insert_eq.
  - rewrite app_comm_cons, app_assoc, (index_snoc key).
    rewrite lookup_insert_ne.
    + apply IH. intros z Hz. apply Hl2, elem_of_app. by left.
    + apply Hl2, elem_of_app. right. apply list_elem_of_here.
Qed.

(** X5. Among the snapshot entries with one url the last is the one the
    current entry is compared with, and likewise for titles. *)
Theorem lookup_dicts_keep_last_entry before after previous_pdf :
  ((∀ q, q ∈ after → url q ≠ url previous_pdf) →
     previous_urls (before ++ previous_pdf :: after) !! url previous_pdf
     = Some previous_pdf)
  ∧ ((∀ q, q ∈ after → title q ≠ title previous_pdf) →
     previous_titles (before ++ previous_pdf :: after) !! title previous_pdf
     = Some previous_pdf).
Proof. split; [apply (index_last_wins url) | apply (index_last_wins title)]. Qed.

Lemma lookup_dicts_keep_last_entry_witness :
  previous_urls ([rules] ++ rules_renamed_file :: [new_doc]) !! url rules_renamed_file
  = Some rules_renamed_file
  ∧ previous_titles ([rules] ++ rules_renamed_file :: [new_doc])
      !! title rules_renamed_file
    = Some rules_renamed_file.
Proof.
  destruct (lookup_dicts_keep_last_entry [rules] [new_doc] rules_renamed_file)
    as [Hu Ht].
  split.
  - apply Hu. intros q ->%list_elem_of_singleton. discriminate.
  - apply Ht. intros q ->%list_elem_of_singleton. discriminate.
Defined.

(** ** The metadata enricher *)

Lemma lstrip_suffix s : lstrip s `suffix_of` s.
Proof.
  induction s as [|c s IH]; [done|]. cbn [lstrip].
  destruct (isspace c); [by apply suffix_cons_r | done].
Qed.

Lemma elem_of_strip x s : x ∈ strip s → x ∈ s.
Proof.
  unfold strip, rstrip. rewrite list_elem_of_In, <- in_rev, <- list_elem_of_In.
  intros Hx.
  assert (x ∈ rev (lstrip s)) as Hr.
  { destruct (lstrip_suffix (rev (lstrip s))) as [k Hk].
    rewrite Hk. apply elem_of_app. by right. }
  rewrite list_elem_of_In, <- in_rev, <- list_elem_of_In in Hr.
  destruct (lstrip_suffix s) as [k Hk]. rewrite Hk. apply elem_of_app.
  by right.
Qed.

Lemma lstrip_idempotent s : lstrip (lstrip s) = lstrip s.
Proof.
  induction s as [|c s IH]; [done|]. cbn [lstrip].
  destruct (isspace c) eqn:Hc; [done|]. cbn [lstrip]. by rewrite Hc.
Qed.

Lemma lstrip_snoc l c : isspace c = false → lstrip (l ++ [c]) = lstrip l ++ [c].
Proof.
  intros Hc. induction l as [|x l IH]; cbn [lstrip app]; [by rewrite Hc|].
  by destruct (isspace x).
Qed.

Lemma lstrip_fixed s :
  lstrip s = s → s = [] ∨ ∃ c s', s = c :: s' ∧ isspace c = false.
Proof.
  destruct s as [|c s]; [by left|]. cbn [lstrip].
  destruct (isspace c) eqn:Hc; [|right; eauto].
  intros H. pose proof (suffix_length _ _ (lstrip_suffix s)) as Hlen.
  rewrite H in Hlen. simpl in Hlen. lia.
Qed.

Lemma lstrip_rstrip s : lstrip s = s → lstrip (rstrip s) = rstrip s.
Proof.
  intros [->|(c & s' & -> & Hc)]%lstrip_fixed; [done|].
  unfold rstrip. cbn [rev]. rewrite lstrip_snoc, rev_app_distr by done.
  cbn [rev app lstrip]. by rewrite Hc.
Qed.

Lemma strip_idempotent s : strip (strip s) = strip s.
Proof.
  unfold strip. rewrite (lstrip_rstrip (lstrip s)) by apply lstrip_idempotent.
  unfold rstrip. by rewrite rev_involutive, lstrip_idempotent.
Qed.

(** The pieces of a split by one code point. *)
Lemma split_from_char c cur s piece :
  piece ∈ split_from [c] 0 cur s →
  ∀ x, x ∈ piece → (x ∈ cur ∨ x ∈ s) ∧ (c ∉ cur → x ≠ c).
Proof.
  revert cur. induction s as [|y s IH]; intros cur.
  - cbn [split_from]. intros ->%list_elem_of_singleton x.
    rewrite list_elem_of_In, <- in_rev, <- list_elem_of_In.
    intros Hx. split; [by left|]. by intros Hc ->.
  - cbn [split_from startswith length]. rewrite andb_true_r.
    destruct (N.eqb_spec c y) as [->|Hne].
    + intros [->|Hin]%elem_of_cons x Hx.
      * rewrite list_elem_of_In, <- in_rev, <- list_elem_of_In in Hx.
        split; [by left|]. by intros Hc ->.
      * destruct (IH [] Hin x Hx) as [[Hnil|Hs] Hc];
          [by apply elem_of_nil in Hnil|].
        split; [right; by apply list_elem_of_further|].
        intros _. apply Hc. apply not_elem_of_nil.
    + intros Hin x Hx. destruct (IH (y :: cur) Hin x Hx) as [Hor Hc].
      split.
      * destruct Hor as [[->|Hcur]%elem_of_cons|Hs];
          [right; apply list_elem_of_here | by left
          | right; by apply list_elem_of_further].
      * intros Hcur. apply Hc. by intros [?|?]%elem_of_cons.
Qed.

Lemma split_char_piece c s piece :
  piece ∈ split [c] s → (∀ x, x ∈ piece → x ∈ s) ∧ (c ∉ piece).
Proof.
  intros Hin. split.
  - intros x Hx. destruct (split_from_char c [] s piece Hin x Hx) as [[H|H] _];
      [by apply elem_of_nil in H | done].
  - intros Hc.
    destruct (split_from_char c [] s piece Hin c Hc) as [_ H].
    by apply H; [apply not_elem_of_nil|].
Qed.

Lemma filename_of_disposition_step (P : str → Prop) parts :
  (∀ part value, part ∈ parts → split [61] part !! 1%nat = Some value →
                 P (strip value)) →
  ∀ start,
    (∀ f, start = Some f → P f) →
    ∀ f,
      foldl (λ filename part,
               if startswith (py "filename=") (strip part)
               then match split (py "=") part !! 1%nat with
                    | Some value => Some (strip value)
                    | None => filename
                    end
               else filename) start parts = Some f →
      P f.
Proof.
  induction parts as [|part parts IH]; intros Hparts start Hstart f;
    [by apply Hstart|].
  cbn [foldl]. apply IH.
  - intros p v Hp. apply Hparts. by apply list_elem_of_further.
  - intros g. destruct (startswith _ _); [|by apply Hstart].
    change (py "=") with [61].
    destruct (split [61] part !! 1%nat) as [value|] eqn:Hv; [|by apply Hstart].
    intros [= <-]. apply (Hparts part value); [apply list_elem_of_here | done].
Qed.

(** X6. A filename that [get_metadata] reads from a [Content-Disposition]
    header holds no [;] and no [=], and has no whitespace at either end. *)
Theorem extracted_filename_is_clean disposition f :
  filename_of_disposition disposition = Some f →
  (59 ∉ f) ∧ (61 ∉ f) ∧ strip f = f.
Proof.
  unfold filename_of_disposition.
  apply (filename_of_disposition_step
           (λ f, (59 ∉ f) ∧ (61 ∉ f) ∧ strip f = f)
           (split (py ";") disposition)); [|done].
  intros part value Hpart Hvalue. change (py ";") with [59] in Hpart.
  apply split_char_piece in Hpart as [_ Hsemi].
  apply list_elem_of_lookup_2, split_char_piece in Hvalue as [Hsub Heq].
  split; [|split].
  - intros H%elem_of_strip. by apply Hsemi, Hsub.
  - by intros H%elem_of_strip.
  - apply strip_idempotent.
Qed.

Lemma extracted_filename_is_clean_witness :
  (59 ∉ py "rules.pdf") ∧ (61 ∉ py "rules.pdf")
  ∧ strip (py "rules.pdf") = py "rules.pdf".
Proof.
  apply (extracted_filename_is_clean
           (py "attachment; filename= rules.pdf ; size=3")).
  vm_compute. reflexivity.
Defined.

Lemma split_from_nonempty sep skip cur s : split_from sep skip cur s ≠ [].
Proof.
  revert skip cur. induction s as [|y s IH]; intros skip cur; [done|].
  cbn [split_from]. destruct skip; [|apply IH].
  destruct (startswith sep (y :: s)); [done | apply IH].
Qed.

Lemma split_from_char_second c cur s :
  c ∈ s → is_Some (split_from [c] 0 cur s !! 1%nat).
Proof.
  revert cur. induction s as [|y s IH]; intros cur; [by intros ?%elem_of_nil|].
  cbn [split_from startswith length]. rewrite andb_true_r.
  destruct (N.eqb_spec c y) as [->|Hne].
  - intros _. cbn [lookup list_lookup].
    pose proof (split_from_nonempty [y] (1 - 1) [] s) as Hne.
    destruct (split_from [y] (1 - 1) [] s); [done | by eexists].
  - intros [->|Hin]%elem_of_cons; [done | by apply IH].
Qed.

Lemma startswith_prefix prefix s :
  startswith prefix s = true → ∃ r, s = prefix ++ r.
Proof.
  revert s. induction prefix as [|p prefix IH]; intros s; [by exists s|].
  destruct s as [|c s]; [done|]. cbn [startswith].
  intros [->%N.eqb_eq [r ->]%IH]%andb_true_iff. by exists r.
Qed.

Lemma filename_part_has_value part :
  startswith (py "filename=") (strip part) = true →
  is_Some (split (py "=") part !! 1%nat).
Proof.
  intros [r Hr]%startswith_prefix. apply split_from_char_second.
  apply elem_of_strip. rewrite Hr. apply elem_of_app. left.
  by vm_compute; repeat constructor.
Qed.

Lemma filename_fold_None parts start :
  foldl (λ filename part,
           if startswith (py "filename=") (strip part)
           then match split (py "=") part !! 1%nat with
                | Some value => Some (strip value)
                | None => filename
                end
           else filename) start parts = None
  ↔ start = None
    ∧ ∀ part, part ∈ parts → startswith (py "filename=") (strip part) = false.
Proof.
  revert start. induction parts as [|part parts IH]; intros start.
  - cbn [foldl]. split; [|by intros [? _]]. intros ->. split; [done|].
    by intros part ?%elem_of_nil.
  - cbn [foldl]. rewrite IH.
    destruct (startswith (py "filename=") (strip part)) eqn:Hs.
    + destruct (filename_part_has_value part Hs) as [value ->].
      split; [by intros [? _]|]. intros [_ H].
      specialize (H part (list_elem_of_here _ _)). congruence.
    + split; intros [-> H]; (split; [done|]).
      * intros p [->|?]%elem_of_cons; [done | by apply H].
      * intros p Hp. by apply H, list_elem_of_further.
Qed.

(** X7. [get_metadata] finds no filename in a [Content-Disposition]
    header exactly when none of its [;]-separated parts, stripped, starts
    with [filename=]; a part that does always has the piece after its
    first [=], so the index 1 of line 65 is never out of range. *)
Theorem no_filename_iff_no_filename_part disposition :
  (filename_of_disposition disposition = None
   ↔ ∀ part, part ∈ split (py ";") disposition →
             startswith (py "filename=") (strip part) = false)
  ∧ ∀ part, startswith (py "filename=") (strip part) = true →
            is_Some (split (py "=") part !! 1%nat).
Proof.
  split; [|apply filename_part_has_value].
  unfold filename_of_disposition. rewrite filename_fold_None.
  split; [by intros [_ H] | by intros H].
Qed.

Lemma get_metadata_caught w url st :
  (∀ e message, head w (requests st) url = HeadRaises e message →
                is_Exception e = true) →
  ∃ log',
    get_metadata w url st
    = (Ok (metadata_filename (head w (requests st) url)),
       Effects (data_file st) log' (sent st) (S (requests st))).
Proof.
  intros Hhead. unfold get_metadata, metadata_filename.
  destruct (head w (requests st) url) as [e message|[[|c d]|]] eqn:Hh;
    [|by eexists..].
  rewrite (Hhead e message eq_refl). by eexists.
Qed.

Lemma attach_filenames_batch w links :
  (∀ n u e message, head w n u = HeadRaises e message → is_Exception e = true) →
  ∀ st, ∃ log',
    attach_filenames w links st
    = (Ok (imap (λ i, enriched w (requests st + i)) links),
       Effects (data_file st) log' (sent st) (requests st + length links)).
Proof.
  intros Hhead. induction links as [|l links IH]; intros st.
  - exists (log st). destruct st. cbn. by rewrite Nat.add_0_r.
  - cbn [attach_filenames]. unfold mbind at 1, M_bind at 1.
    destruct (get_metadata_caught w (link_url l) st) as [log1 ->];
      [intros e m; apply Hhead|].
    unfold mbind, M_bind.
    destruct (IH (Effects (data_file st) log1 (sent st) (S (requests st))))
      as [log2 ->].
    exists log2. unfold mret, M_ret. cbn [data_file sent requests length].
    f_equal; [f_equal|f_equal; lia].
    rewrite imap_cons. unfold enriched at 2. rewrite Nat.add_0_r. f_equal.
    apply imap_ext. intros i x _. simpl. f_equal. lia.
Qed.

(** X8. When every HEAD request that fails raises an [Exception], the
    loop of lines 79-81 gets through the whole list: it makes one request
    per entry, in order, and returns the entries with their titles, urls
    and document ids as they were, each with the filename of its own
    response ([None] for a failed request). It sends nothing and leaves
    the snapshot file alone. *)
Theorem enrichment_gets_through_the_batch w links st :
  (∀ n u e message, head w n u = HeadRaises e message → is_Exception e = true) →
  ∃ st',
    attach_filenames w links st
    = (Ok (imap (λ i, enriched w (requests st + i)) links), st')
    ∧ requests st' = (requests st + length links)%nat
    ∧ data_file st' = data_file st
    ∧ sent st' = sent st.
Proof.
  intros Hhead. destruct (attach_filenames_batch w links Hhead st) as [log' ->].
  by eexists.
Qed.

Lemma enrichment_gets_through_the_batch_witness :
  ∃ st',
    attach_filenames (quiet_world page_one_document ids) [rules_2024_link]
      (start Missing)
    = (Ok (imap (λ i, enriched (quiet_world page_one_document ids)
                        (requests (start Missing) + i)) [rules_2024_link]), st')
    ∧ requests st' = (requests (start Missing) + length [rules_2024_link])%nat
    ∧ data_file st' = data_file (start Missing)
    ∧ sent st' = sent (start Missing).
Proof.
  apply (enrichment_gets_through_the_batch
           (quiet_world page_one_document ids) [rules_2024_link]
           (start Missing)).
  intros n u e message H. simpl in H. discriminate.
Defined.

(** ** The listing parser *)

Lemma startswith_app prefix r : startswith prefix (prefix ++ r) = true.
Proof.
  induction prefix as [|p prefix IH]; [done|]. cbn [startswith app].
  by rewrite N.eqb_refl, IH.
Qed.

Lemma split_from_second sep cur s :
  sep ≠ [] →
  is_Some (split_from sep 0 cur s !! 1%nat) ↔ contains sep s = true.
Proof.
  intros Hsep. revert cur. induction s as [|y s IH]; intros cur.
  - destruct sep; [done|]. cbn. split; [by intros [? ?] | done].
  - cbn [split_from contains].
    destruct (startswith sep (y :: s)) eqn:Hs.
    + split; [done|]. intros _. cbn [lookup list_lookup].
      pose proof (split_from_nonempty sep (length sep - 1) [] s) as Hne.
      destruct (split_from sep (length sep - 1) [] s); [done | by eexists].
    + apply IH.
Qed.

Lemma document_id_of_None url :
  document_id_of url = None ↔ contains (py "DocumentID=") url = false.
Proof.
  unfold document_id_of, split.
  rewrite eq_None_not_Some, split_from_second by done.
  by destruct (contains _ url).
Qed.

Lemma scrape_row_url row l :
  scrape_row row = Ok (Some l) → startswith base_url (link_url l) = true.
Proof.
  unfold scrape_row, mbind, result_bind. intros H.
  repeat (case_match; try discriminate); injection H as <-;
    match goal with
    | Hhref : attrs _ !! _ = Some (AttrStr ?href) |- _ =>
        exact (startswith_app base_url href)
    end.
Qed.

Lemma scrape_rows_entries rows : ∀ links,
  scrape_rows rows = Ok links →
  (length links ≤ length rows)%nat
  ∧ ∀ l, l ∈ links →
      startswith base_url (link_url l) = true
      ∧ link_document_id l = document_id_of (link_url l).
Proof.
  induction rows as [|row rows IH]; intros links.
  - intros [= <-]. split; [done|]. by intros l ?%elem_of_nil.
  - cbn [scrape_rows]. unfold mbind, result_bind.
    destruct (scrape_row row) as [entry| |] eqn:Hrow; [|done..].
    destruct (scrape_rows rows) as [links'| |]; [|done..].
    intros [= <-]. destruct (IH links' eq_refl) as [Hlen Hall].
    destruct entry as [l|]; cbn [length]; (split; [lia|]); [|done].
    intros l' [->|Hin]%elem_of_cons; [|by apply Hall].
    split; [by apply (scrape_row_url row) | by apply (scrape_row_document_id row)].
Qed.

(** X9. When the loop over the rows ends without an exception, it has
    made at most one entry per row, every url starts with the base url,
    and an entry's document id is [None] exactly when its url does not
    contain [DocumentID=]. *)
Theorem scraped_entries_are_well_formed rows links :
  scrape_rows rows = Ok links →
  (length links ≤ length rows)%nat
  ∧ ∀ l, l ∈ links →
      startswith base_url (link_url l) = true
      ∧ (link_document_id l = None
         ↔ contains (py "DocumentID=") (link_url l) = false).
Proof.
  intros [Hlen Hall]%scrape_rows_entries. split; [done|].
  intros l [Hurl Hid]%Hall. split; [done|].
  rewrite Hid. apply document_id_of_None.
Qed.

Lemma rows_until_folder_all rows :
  (∀ r, r ∈ rows → has_folder_class r = false) →
  rows_until_folder rows = rows.
Proof.
  induction rows as [|r rows IH]; [done|]. intros Hall. cbn [rows_until_folder].
  rewrite (Hall r) by apply list_elem_of_here. rewrite IH; [done|].
  intros r' Hr'. by apply Hall, list_elem_of_further.
Qed.

(** X10. The rows collected after the marker row are the [tr] siblings
    before the first one with the class [folder]; that row and whatever
    follows it are left out, and without such a row all are collected. *)
Theorem rows_stop_at_next_folder rows folder_row following :
  (∀ r, r ∈ rows → has_folder_class r = false) →
  (has_folder_class folder_row = true →
     rows_until_folder (rows ++ folder_row :: following) = rows)
  ∧ rows_until_folder rows = rows.
Proof.
  intros Hall. split; [|by apply rows_until_folder_all].
  intros Hfolder. induction rows as [|r rows IH].
  - cbn [app rows_until_folder]. by rewrite Hfolder.
  - cbn [app rows_until_folder]. rewrite (Hall r) by apply list_elem_of_here.
    rewrite IH; [done|]. intros r' Hr'. by apply Hall, list_elem_of_further.
Qed.

Lemma scraped_entries_are_well_formed_witness :
  (length [rules_2024_link] ≤ length [rules_2024_row])%nat
  ∧ ∀ l, l ∈ [rules_2024_link] →
      startswith base_url (link_url l) = true
      ∧ (link_document_id l = None
         ↔ contains (py "DocumentID=") (link_url l) = false).
Proof.
  apply (scraped_entries_are_well_formed [rules_2024_row] [rules_2024_link]).
  vm_compute. reflexivity.
Defined.

Lemma rows_stop_at_next_folder_witness :
  (has_folder_class folder_row = true →
     rows_until_folder ([rules_2024_row] ++ folder_row :: [rules_2024_row])
     = [rules_2024_row])
  ∧ rows_until_folder [rules_2024_row] = [rules_2024_row].
Proof.
  apply (rows_stop_at_next_folder [rules_2024_row] folder_row [rules_2024_row]).
  intros r ->%list_elem_of_singleton. vm_compute. reflexivity.
Defined.

Lemma find_app {A} (test : A → bool) (l1 l2 : list A) :
  List.find test (l1 ++ l2)
  = match List.find test l1 with
    | Some x => Some x
    | None => List.find test l2
    end.
Proof.
  induction l1 as [|x l1 IH]; [done|]. cbn [List.find app].
  by destruct (test x).
Qed.

Lemma find_from_first test n :
  ∀ siblings, fst <$> find_from test n siblings = List.find test (tags_in n).
Proof.
  induction n as [s|s|name attrs contents IH] using node_ind;
    intros siblings; [done..|].
  cbn [find_from tags_in List.find].
  destruct (test (MkTag name attrs contents)); [done|].
  induction IH as [|child contents Hchild _ IHcontents]; [done|].
  rewrite find_app, <- (Hchild contents).
  destruct (find_from test child contents) as [found|]; [done|].
  apply IHcontents.
Qed.

Lemma find_with_next_siblings_first test l :
  fst <$> find_with_next_siblings test l = List.find test (tags_of l).
Proof.
  induction l as [|n l IH]; [done|].
  cbn [find_with_next_siblings tags_of].
  rewrite find_app, <- (find_from_first test n l).
  by destruct (find_from test n l).
Qed.

Lemma find_None {A} (test : A → bool) (l : list A) :
  List.find test l = None ↔ ∀ x, x ∈ l → test x = false.
Proof.
  induction l as [|x l IH]; [by split; [intros _ ? ?%elem_of_nil|]|].
  cbn [List.find]. destruct (test x) eqn:Hx.
  - split; [done|]. intros H. specialize (H x (list_elem_of_here _ _)).
    congruence.
  - rewrite IH. split.
    + by intros H y [->|?]%elem_of_cons; [|apply H].
    + intros H y Hy. by apply H, list_elem_of_further.
Qed.

(** X11. [scrape_pdfs] returns [None] exactly when no tag of the page, at
    any depth, is a [tr] whose [data-folder-id] is the section name; a
    marker row anywhere in the tree is found, and then the result is a
    list or an exception. *)
Theorem scrape_pdfs_None_iff_no_marker w soup st :
  page w = Ok soup →
  (scrape_pdfs w st).1 = Ok None
  ↔ ∀ t, t ∈ tags_of soup → is_ruleset_row t = false.
Proof.
  intros Hpage. rewrite <- find_None, <- find_with_next_siblings_first.
  unfold scrape_pdfs, mbind, M_bind, lift. rewrite Hpage.
  destruct (find_with_next_siblings is_ruleset_row soup)
    as [[ruleset_row siblings]|]; [|done].
  split; [|done].
  by destruct (scrape_rows _) as [links| |].
Qed.

Lemma scrape_pdfs_None_iff_no_marker_witness :
  (scrape_pdfs (quiet_world page_without_marker ids) (start Missing)).1 = Ok None
  ↔ ∀ t, t ∈ tags_of page_without_marker → is_ruleset_row t = false.
Proof.
  apply (scrape_pdfs_None_iff_no_marker
           (quiet_world page_without_marker ids) page_without_marker
           (start Missing)).
  reflexivity.
Defined.

(** ** The cycle as a whole *)

Lemma check_for_updates_unfold w :
  check_for_updates w
  = (previous ← load_data;
     scraped ← scrape_pdfs w;
     ClientSession;;
     current_pdfs ← match scraped with
                    | Some links => attach_filenames w links
                    | None => raise TypeError
                    end;
     previous_pdfs ← lift (pdfs_of_json previous);
     notify_and_save w current_pdfs previous_pdfs).
Proof. reflexivity. Qed.

Lemma bind_keeps_sent {A B} (m : M A) (f : A → M B) :
  keeps_sent m → (∀ a, keeps_sent (f a)) → keeps_sent (m ≫= f).
Proof.
  intros Hm Hf st. unfold mbind, M_bind. specialize (Hm st).
  destruct (m st) as [[a|e|] st1]; simpl in *; [|done..].
  by rewrite Hf.
Qed.

Lemma load_data_keeps_sent : keeps_sent load_data.
Proof. intros st. by rewrite load_data_unchanged. Qed.

Lemma scrape_pdfs_keeps_sent w : keeps_sent (scrape_pdfs w).
Proof.
  unfold scrape_pdfs. apply bind_keeps_sent; [done|]. intros soup.
  destruct (find_with_next_siblings _ soup) as [[ruleset_row siblings]|];
    by apply bind_keeps_sent.
Qed.

Lemma get_metadata_keeps_sent w url : keeps_sent (get_metadata w url).
Proof.
  intros st. unfold get_metadata.
  destruct (head w (requests st) url) as [e message|[[|c disposition]|]];
    [|done..].
  by destruct (is_Exception e).
Qed.

Lemma attach_filenames_keeps_sent w links :
  keeps_sent (attach_filenames w links).
Proof.
  induction links as [|l links IH]; [done|]. cbn [attach_filenames].
  apply bind_keeps_sent; [apply get_metadata_keeps_sent|]. intros filename.
  by apply bind_keeps_sent.
Qed.

(** What one announcement does: nothing for an empty list; otherwise the
    message is sent, or [send] raises and nothing is sent. *)
Lemma announce_effects channel_id channel found message pdfs st :
  ∃ log',
    announce channel_id channel found message pdfs st
    = (Ok (), Effects (data_file st) log'
                      (sent st ++ announcement channel_id message pdfs)
                      (requests st))
    ∨ (∃ e, pdfs ≠ []
            ∧ announce channel_id channel found message pdfs st
              = (Raise e, Effects (data_file st) log' (sent st) (requests st))).
Proof.
  destruct pdfs as [|pdf pdfs].
  - exists (log st). left. destruct st. cbn. by rewrite app_nil_r.
  - unfold announce, mbind, M_bind, logger, send. cbn [data_file log sent requests].
    eexists. destruct (channel _) as [e|]; [right; by exists e | by left].
Qed.

Lemma save_data_effects w data st :
  save_data w data st
  = match write_error w with
    | Some e => (Raise e, st)
    | None => (Ok (), Effects (Holds (dumps data)) (log st) (sent st)
                              (requests st))
    end.
Proof. reflexivity. Qed.

Lemma announce_and_save w C R channel found1 found2 current new modified st :
  let r := (announce C channel found1 (new_message R) new;;
            announce C channel found2 (modified_message R) modified;;
            save_data w (json_of_pdfs current)) st in
  requests r.2 = requests st
  ∧ ((data_file r.2 = data_file st
      ∧ ∃ msgs, sent r.2 = sent st ++ msgs
                ∧ msgs `prefix_of` announcements C R new modified)
     ∨ (r.1 = Ok ()
        ∧ data_file r.2 = Holds (dumps (json_of_pdfs current))
        ∧ sent r.2 = sent st ++ announcements C R new modified)).
Proof.
  intros r.
  assert (r = (announce C channel found1 (new_message R) new;;
               announce C channel found2 (modified_message R) modified;;
               save_data w (json_of_pdfs current)) st) as Hr by done.
  clearbody r. unfold announcements.
  unfold mbind at 1, M_bind at 1 in Hr.
  destruct (announce_effects C channel found1 (new_message R) new st)
    as [log1 [H1|(e & _ & H1)]]; rewrite H1 in Hr; clear H1.
  2:{ subst r. cbn [fst snd data_file sent requests].
      split; [done|]. left. split; [done|]. exists [].
      split; [by rewrite app_nil_r | apply prefix_nil]. }
  unfold mbind at 1, M_bind at 1 in Hr.
  set (st1 := Effects _ _ _ _) in Hr.
  destruct (announce_effects C channel found2 (modified_message R) modified st1)
    as [log2 [H2|(e & _ & H2)]]; rewrite H2 in Hr; clear H2; subst st1;
    cbn [fst snd data_file sent requests] in Hr.
  2:{ subst r. cbn [fst snd data_file sent requests].
      split; [done|]. left. split; [done|]. eexists.
      split; [done | by apply prefix_app_r]. }
  rewrite save_data_effects in Hr. cbn [data_file sent requests log] in Hr.
  destruct (write_error w) as [e|]; subst r;
    cbn [fst snd data_file sent requests].
  - split; [done|]. left. split; [done|]. eexists.
    split; [by rewrite <- app_assoc | done].
  - split; [done|]. right. by rewrite <- app_assoc.
Qed.

Lemma notify_and_save_cases w current previous st :
  let r := notify_and_save w current previous st in
  requests r.2 = requests st
  ∧ ((data_file r.2 = data_file st
      ∧ ∃ msgs,
          sent r.2 = sent st ++ msgs
          ∧ (msgs = []
             ∨ ∃ C R,
                 int (getenv w (py "CHANNEL_ID")) = Ok C
                 ∧ int (getenv w (py "ROLE_ID")) = Ok R
                 ∧ msgs `prefix_of`
                     announcements C R (new_pdfs previous current)
                                   (modified_pdfs previous current)))
     ∨ (r.1 = Ok ()
        ∧ data_file r.2 = Holds (dumps (json_of_pdfs current))
        ∧ ∃ C R,
            int (getenv w (py "CHANNEL_ID")) = Ok C
            ∧ int (getenv w (py "ROLE_ID")) = Ok R
            ∧ C ≠ 0%Z ∧ R ≠ 0%Z
            ∧ sent r.2
              = sent st ++ announcements C R (new_pdfs previous current)
                                         (modified_pdfs previous current))).
Proof.
  assert (∀ r : result () * effects,
            requests r.2 = requests st → data_file r.2 = data_file st →
            sent r.2 = sent st →
            requests r.2 = requests st
            ∧ ((data_file r.2 = data_file st
                ∧ ∃ msgs,
                    sent r.2 = sent st ++ msgs
                    ∧ (msgs = []
                       ∨ ∃ C R,
                           int (getenv w (py "CHANNEL_ID")) = Ok C
                           ∧ int (getenv w (py "ROLE_ID")) = Ok R
                           ∧ msgs `prefix_of`
                               announcements C R (new_pdfs previous current)
                                 (modified_pdfs previous current)))
               ∨ (r.1 = Ok ()
                  ∧ data_file r.2 = Holds (dumps (json_of_pdfs current))
                  ∧ ∃ C R,
                      int (getenv w (py "CHANNEL_ID")) = Ok C
                      ∧ int (getenv w (py "ROLE_ID")) = Ok R
                      ∧ C ≠ 0%Z ∧ R ≠ 0%Z
                      ∧ sent r.2
                        = sent st
                          ++ announcements C R (new_pdfs previous current)
                               (modified_pdfs previous current)))) as Hquiet.
  { intros r Hr Hf Hs. split; [done|]. left. split; [done|]. exists [].
    split; [by rewrite app_nil_r | by left]. }
  intros r.
  assert (r = notify_and_save w current previous st) as Hr by done.
  clearbody r. revert Hr.
  unfold notify_and_save, new_pdfs, modified_pdfs in *.
  destruct (compare_pdfs previous current) as [new modified].
  cbn [fst snd] in *.
  unfold mbind at 1, M_bind at 1, lift at 1.
  destruct (int (getenv w (py "CHANNEL_ID"))) as [C| |];
    [|by intros ->; apply Hquiet..].
  unfold mbind at 1, M_bind at 1, lift at 1.
  destruct (int (getenv w (py "ROLE_ID"))) as [R| |];
    [|by intros ->; apply Hquiet..].
  destruct (decide (C = 0%Z)) as [HC|HC];
    [rewrite (bool_decide_eq_true_2 _ HC); by intros ->; apply Hquiet|].
  rewrite (bool_decide_eq_false_2 _ HC).
  destruct (decide (R = 0%Z)) as [HR|HR];
    [rewrite (bool_decide_eq_true_2 _ HR); by intros ->; apply Hquiet|].
  rewrite (bool_decide_eq_false_2 _ HR). cbn [orb].
  assert (∀ found1 found2 channel,
            let r := (announce C channel found1 (new_message R) new;;
                      announce C channel found2 (modified_message R) modified;;
                      save_data w (json_of_pdfs current)) st in
            requests r.2 = requests st
            ∧ ((data_file r.2 = data_file st
                ∧ ∃ msgs,
                    sent r.2 = sent st ++ msgs
                    ∧ (msgs = []
                       ∨ ∃ C0 R0,
                           Ok C = Ok C0 ∧ Ok R = Ok R0
                           ∧ msgs `prefix_of` announcements C0 R0 new modified))
               ∨ (r.1 = Ok ()
                  ∧ data_file r.2 = Holds (dumps (json_of_pdfs current))
                  ∧ ∃ C0 R0,
                      Ok C = Ok C0 ∧ Ok R = Ok R0 ∧ C0 ≠ 0%Z ∧ R0 ≠ 0%Z
                      ∧ sent r.2 = sent st ++ announcements C0 R0 new modified)))
    as Hannounce.
  { intros found1 found2 channel.
    destruct (announce_and_save w C R channel found1 found2 current new
                modified st) as [Hreq [(Hf & msgs & Hs & Hp)|(Hr & Hf & Hs)]].
    - split; [done|]. left. split; [done|]. exists msgs. split; [done|].
      right. by exists C, R.
    - split; [done|]. right. do 2 (split; [done|]). by exists C, R. }
  destruct new as [|n new], modified as [|m modified];
    try (destruct (get_channel w C) as [channel|];
         [intros ->; apply Hannounce | by intros ->; apply Hquiet]).
  unfold mbind, M_bind, logger. rewrite save_data_effects.
  cbn [data_file sent requests log].
  destruct (write_error w) as [e|]; [by intros ->; apply Hquiet|].
  intros ->. cbn [fst snd data_file sent requests].
  split; [done|]. right. do 2 (split; [done|]). exists C, R.
  do 4 (split; [done|]). cbn. by rewrite app_nil_r.
Qed.

(** Up to line 85 the cycle sends nothing and leaves the snapshot file
    alone; it either ends there, or goes on with the two lists. *)
Lemma cycle_cases w st :
  ((check_for_updates w st).1 ≠ Ok ()
   ∧ data_file (check_for_updates w st).2 = data_file st
   ∧ sent (check_for_updates w st).2 = sent st)
  ∨ ∃ current previous st1,
      data_file st1 = data_file st ∧ sent st1 = sent st
      ∧ check_for_updates w st = notify_and_save w current previous st1.
Proof.
  remember (check_for_updates w st) as r eqn:Hr.
  rewrite check_for_updates_unfold in Hr. unfold mbind at 1, M_bind at 1 in Hr.
  pose proof (load_data_unchanged st) as Hload.
  destruct (load_data st) as [[previous|e|] st0]; simpl in Hload; subst st0;
    [|subst r; by left..].
  unfold mbind at 1, M_bind at 1 in Hr.
  pose proof (scrape_pdfs_keeps_file w st) as Hf1.
  pose proof (scrape_pdfs_keeps_sent w st) as Hs1.
  destruct (scrape_pdfs w st) as [[scraped|e|] st1]; simpl in Hf1, Hs1;
    [|subst r; by left..].
  unfold mbind at 1, M_bind at 1, ClientSession at 1 in Hr.
  unfold mbind at 1, M_bind at 1 in Hr.
  set (st2 := Effects (data_file st1) (log st1) (sent st1) 0) in Hr.
  destruct scraped as [links|]; [|subst r; by left].
  pose proof (attach_filenames_keeps_file w links st2) as Hf2.
  pose proof (attach_filenames_keeps_sent w links st2) as Hs2.
  destruct (attach_filenames w links st2) as [[current|e|] st3];
    simpl in Hf2, Hs2; [|subst r; left; simpl; by rewrite Hf2, Hs2..].
  unfold mbind at 1, M_bind at 1, lift at 1 in Hr.
  destruct (pdfs_of_json previous) as [previous_pdfs|e|];
    [|subst r; left; simpl; by rewrite Hf2, Hs2..].
  right. exists current, previous_pdfs, st3.
  split; [by rewrite Hf2|]. split; [by rewrite Hs2 | done].
Qed.


Lemma announcement_length C message pdfs :
  (length (announcement C message pdfs) ≤ 1)%nat
  ∧ ∀ m, m ∈ announcement C message pdfs → m.1 = C.
Proof.
  destruct pdfs; simpl; split; try lia.
  - by intros m ?%elem_of_nil.
  - by intros m ->%list_elem_of_singleton.
Qed.

(** X13. A cycle sends at most two messages, and all of them to the
    channel with the configured id. *)
Theorem cycle_sends_at_most_two_messages w st :
  ∃ msgs,
    sent (check_for_updates w st).2 = sent st ++ msgs
    ∧ (length msgs ≤ 2)%nat
    ∧ ∀ C, int (getenv w (py "CHANNEL_ID")) = Ok C →
           ∀ m, m ∈ msgs → m.1 = C.
Proof.
  assert (∀ C R new modified msgs,
            msgs `prefix_of` announcements C R new modified →
            (length msgs ≤ 2)%nat ∧ ∀ m, m ∈ msgs → m.1 = C) as Hprefix.
  { intros C R new modified msgs Hp.
    destruct (announcement_length C (new_message R) new) as [Hl1 Hc1].
    destruct (announcement_length C (modified_message R) modified)
      as [Hl2 Hc2].
    split.
    - apply prefix_length in Hp. unfold announcements in Hp.
      rewrite length_app in Hp. lia.
    - intros m Hm. destruct Hp as [k Hk].
      assert (m ∈ announcements C R new modified) as Hin
        by (rewrite Hk; apply elem_of_app; by left).
      apply elem_of_app in Hin as [?|?]; auto. }
  destruct (cycle_cases w st)
    as [(_ & _ & Hs)|(current & previous & st1 & _ & Hs & ->)].
  { exists []. rewrite app_nil_r. split; [done|]. split; [simpl; lia|].
    by intros C _ m ?%elem_of_nil. }
  destruct (notify_and_save_cases w current previous st1)
    as [_ [(_ & msgs & Hs' & Hm)|(_ & _ & C & R & HC & _ & _ & _ & Hs')]].
  - exists msgs. rewrite Hs', Hs. split; [done|].
    destruct Hm as [->|(C & R & HC & _ & Hp)].
    + split; [simpl; lia|]. by intros C _ m ?%elem_of_nil.
    + destruct (Hprefix _ _ _ _ _ Hp) as [Hlen Hto]. split; [done|].
      intros C' HC'. rewrite HC in HC'. by injection HC' as <-.
  - eexists. rewrite Hs', Hs. split; [done|].
    destruct (Hprefix C R (new_pdfs previous current)
                (modified_pdfs previous current) _ (reflexivity _))
      as [Hlen Hto].
    split; [done|]. intros C' HC'. rewrite HC in HC'. by injection HC' as <-.
Qed.











(** X20. On every page no tag of which is the marker row, a cycle that
    has loaded its snapshot logs the warning of line 157 and then raises
    [TypeError] at line 79; it sends nothing and does not write the
    snapshot file. *)
Theorem cycle_without_marker_raises w soup st previous :
  page w = Ok soup →
  (∀ t, t ∈ tags_of soup → is_ruleset_row t = false) →
  (load_data st).1 = Ok previous →
  check_for_updates w st
  = (Raise TypeError,
     Effects (data_file st) (log st ++ [(WARNING, py "Ruleset row not found")])
             (sent st) 0).
Proof.
  intros Hpage Hnone%find_None Hload.
  rewrite <- find_with_next_siblings_first in Hnone.
  destruct (find_with_next_siblings is_ruleset_row soup) as [found|] eqn:Hfind;
    [done|].
  destruct (marker_not_found w soup st Hpage Hfind) as [_ Hcycle].
  apply (Hcycle previous).
  pose proof (load_data_unchanged st) as Hst.
  destruct (load_data st) as [r st0]. simpl in *. by subst.
Qed.

Lemma cycle_without_marker_raises_witness :
  check_for_updates (quiet_world page_without_marker ids) (start old_snapshot)
  = (Raise TypeError,
     Effects (data_file (start old_snapshot))
             (log (start old_snapshot)
              ++ [(WARNING, py "Ruleset row not found")])
             (sent (start old_snapshot)) 0).
Proof.
  apply (cycle_without_marker_raises (quiet_world page_without_marker ids)
           page_without_marker (start old_snapshot)
           (json_of_pdfs [rules])).
  - reflexivity.
  - intros t Ht. vm_compute in Ht.
    repeat (apply elem_of_cons in Ht as [->|Ht]; [by vm_compute|]).
    by apply elem_of_nil in Ht.
  - vm_compute. reflexivity.
Defined.

(** ** The snapshot store, further *)

Lemma hex_digit_plain n : n < 16 → plain (hex_digit n).
Proof.
  intros Hn. unfold plain, hex_digit. right.
  destruct (N.ltb_spec n 10); lia.
Qed.

Lemma u_escape_plain n : n < 0x10000 → Forall plain (u_escape n).
Proof.
  intros Hn. unfold u_escape.
  assert (n / 4096 < 16) by (apply N.Div0.div_lt_upper_bound; lia).
  pose proof (N.mod_lt n 16). pose proof (N.mod_lt (n / 16) 16).
  pose proof (N.mod_lt (n / 256) 16).
  repeat apply Forall_cons_2; try apply Forall_nil_2;
    try (apply hex_digit_plain; lia); right; lia.
Qed.

Lemma escape_ascii_plain c : Forall plain (escape_ascii c).
Proof.
  unfold escape_ascii.
  repeat (case_match;
          [repeat apply Forall_cons_2; try apply Forall_nil_2; right; lia|]).
  destruct ((32 <=? c) && (c <=? 126)) eqn:Hprint.
  - apply andb_true_iff in Hprint as [?%N.leb_le ?%N.leb_le].
    apply Forall_cons_2; [by right | apply Forall_nil_2].
  - destruct (N.ltb_spec c 0x10000) as [Hbmp|Hbmp];
      [by apply u_escape_plain|].
    change 0x3ff with (N.ones 10). rewrite !N.land_ones.
    change (2 ^ 10) with 1024.
    assert (∀ a x, x < 1024 → a < 64 →
                   N.lor (N.shiftl a 10) x < 0x10000) as Hlor.
    { intros a x Hx Ha. rewrite lor_shiftl_low by done.
      change (2 ^ 10) with 1024. lia. }
    apply Forall_app. split; apply u_escape_plain.
    + change 0xd800 with (N.shiftl 54 10).
      apply Hlor; [by apply N.mod_lt | lia].
    + change 0xdc00 with (N.shiftl 55 10).
      apply Hlor; [by apply N.mod_lt | lia].
Qed.

Lemma encode_basestring_ascii_plain s :
  Forall plain (encode_basestring_ascii s).
Proof.
  unfold encode_basestring_ascii. apply Forall_cons_2; [right; lia|].
  apply Forall_app. split; [|apply Forall_cons_2; [right; lia | done]].
  induction s as [|c s IH]; [done|]. cbn [escape_all].
  apply Forall_app. split; [apply escape_ascii_plain | done].
Qed.

Lemma newline_indent_plain level : Forall plain (newline_indent level).
Proof.
  unfold newline_indent. apply Forall_cons_2; [by left|].
  induction (4 * level)%nat as [|n IH]; [done|].
  apply Forall_cons_2; [right; lia | done].
Qed.

Ltac plain_literal :=
  match goal with
  | |- Forall plain ?l =>
      let l' := eval vm_compute in l in change (Forall plain l')
  end;
  repeat apply Forall_cons_2; try apply Forall_nil_2; right; lia.

Lemma iterencode_plain o : ∀ level, Forall plain (iterencode level o).
Proof.
  induction o as [|b|s|l IH|items IH] using json_ind; intros level.
  - plain_literal.
  - destruct b; plain_literal.
  - apply encode_basestring_ascii_plain.
  - destruct l as [|first more];
      [plain_literal|].
    apply Forall_cons in IH as [Hfirst Hmore]. rewrite iterencode_list.
    apply Forall_cons_2; [right; lia|].
    apply Forall_app. split; [apply newline_indent_plain|].
    apply Forall_app. split; [apply Hfirst|].
    induction Hmore as [|value more Hvalue _ IHmore]; cbn [list_rest].
    + apply Forall_app. split; [apply newline_indent_plain|].
      apply Forall_cons_2; [right; lia | done].
    + apply Forall_cons_2; [right; lia|].
      apply Forall_app. split; [apply newline_indent_plain|].
      apply Forall_app. split; [apply Hvalue | apply IHmore].
  - destruct items as [|[key first] more];
      [plain_literal|].
    apply Forall_cons in IH as [Hfirst Hmore]. rewrite iterencode_dict.
    apply Forall_cons_2; [right; lia|].
    apply Forall_app. split; [apply newline_indent_plain|].
    apply Forall_app. split; [apply encode_basestring_ascii_plain|].
    apply Forall_app.
    split; [plain_literal|].
    apply Forall_app. split; [apply Hfirst|].
    induction Hmore as [|[k value] more Hvalue _ IHmore]; cbn [dict_rest].
    + apply Forall_app. split; [apply newline_indent_plain|].
      apply Forall_cons_2; [right; lia | done].
    + apply Forall_cons_2; [right; lia|].
      apply Forall_app. split; [apply newline_indent_plain|].
      apply Forall_app. split; [apply encode_basestring_ascii_plain|].
      apply Forall_app.
      split; [plain_literal|].
      apply Forall_app. split; [apply Hvalue | apply IHmore].
Qed.

(** X16. Whatever value [save_data] writes, the text of the snapshot file
    consists of printable ASCII characters and line feeds only: every
    other code point of a string is escaped, so that writing the file in
    UTF-8 cannot fail on a character and no carriage return is written. *)
Theorem save_data_writes_plain_ascii w data st :
  (save_data w data st).1 = Ok () →
  ∃ text,
    data_file (save_data w data st).2 = Holds text
    ∧ Forall plain text.
Proof.
  rewrite save_data_effects. destruct (write_error w); [done|]. intros _.
  exists (dumps data). split; [done | apply iterencode_plain].
Qed.

Lemma save_data_writes_plain_ascii_witness :
  ∃ text,
    data_file
      (save_data (quiet_world [] ids) (json_of_pdfs [rules; new_doc])
         (start Missing)).2 = Holds text
    ∧ Forall plain text.
Proof.
  apply (save_data_writes_plain_ascii (quiet_world [] ids)
           (json_of_pdfs [rules; new_doc]) (start Missing)).
  reflexivity.
Defined.


(** ** The announcements *)

Lemma contains_unfold sub s :
  contains sub s
  = startswith sub s || match s with
                        | [] => false
                        | _ :: s' => contains sub s'
                        end.
Proof. by destruct s. Qed.

Lemma contains_infix sub a b : contains sub (a ++ sub ++ b) = true.
Proof.
  induction a as [|x a IH].
  - rewrite contains_unfold. cbn [app]. by rewrite startswith_app.
  - rewrite contains_unfold. cbn [app]. rewrite IH. apply orb_true_r.
Qed.

Lemma join_element sep parts part :
  part ∈ parts → ∃ a b, join sep parts = a ++ part ++ b.
Proof.
  induction parts as [|p parts IH]; [by intros ?%elem_of_nil|].
  intros [->|Hin]%elem_of_cons.
  - destruct parts as [|q parts].
    + exists [], []. by rewrite app_nil_r.
    + exists [], (sep ++ join sep (q :: parts)). done.
  - destruct (IH Hin) as (a & b & Hab).
    destruct parts as [|q parts]; [by apply elem_of_nil in Hin|].
    exists (p ++ sep ++ a), b. cbn [join] in *. rewrite Hab.
    by rewrite <- !app_assoc.
Qed.

Lemma contains_in_join sub sep parts a b :
  a ++ sub ++ b ∈ parts → contains sub (join sep parts) = true.
Proof.
  intros (a' & b' & ->)%(join_element sep).
  replace (a' ++ (a ++ sub ++ b) ++ b') with ((a' ++ a) ++ sub ++ (b ++ b'))
    by by rewrite <- !app_assoc.
  apply contains_infix.
Qed.

Lemma startswith_app_both a b c :
  startswith (a ++ b) (a ++ c) = startswith b c.
Proof.
  induction a as [|x a IH]; [done|]. cbn [app startswith].
  by rewrite N.eqb_refl, IH.
Qed.

Lemma startswith_weaken prefix s r :
  startswith prefix s = true → startswith prefix (s ++ r) = true.
Proof.
  revert s. induction prefix as [|p prefix IH]; intros s; [done|].
  destruct s as [|c s]; [done|]. cbn [app startswith].
  intros [-> ?]%andb_true_iff. by rewrite IH.
Qed.

Lemma join_head sep part parts : ∃ r, join sep (part :: parts) = part ++ r.
Proof.
  destruct parts as [|q parts]; [exists []; by rewrite app_nil_r|].
  by eexists.
Qed.

(** X18. The announcement of the new entries starts with the mention of
    the role and holds the title and the url of every entry announced;
    so does the announcement of the modified entries. *)
Theorem announcements_name_every_entry ROLE_ID pdfs pdf :
  pdf ∈ pdfs →
  (startswith (py "<@&" ++ str_of_int ROLE_ID ++ py ">")
              (new_message ROLE_ID pdfs) = true
   ∧ contains (title pdf) (new_message ROLE_ID pdfs) = true
   ∧ contains (url pdf) (new_message ROLE_ID pdfs) = true)
  ∧ (startswith (py "<@&" ++ str_of_int ROLE_ID ++ py ">")
                (modified_message ROLE_ID pdfs) = true
     ∧ contains (title pdf) (modified_message ROLE_ID pdfs) = true
     ∧ contains (url pdf) (modified_message ROLE_ID pdfs) = true).
Proof.
  intros Hin.
  assert (∀ (line : pdf_entry → str) header,
            startswith (py ">") header = true →
            startswith (py "<@&" ++ str_of_int ROLE_ID ++ py ">")
              (join [10] ((py "<@&" ++ str_of_int ROLE_ID ++ header)
                          :: (line <$> pdfs))) = true) as Hstart.
  { intros line header Hheader.
    destruct (join_head [10] (py "<@&" ++ str_of_int ROLE_ID ++ header)
                (line <$> pdfs)) as [r ->].
    apply startswith_weaken. by rewrite !startswith_app_both. }
  split; (split; [|split]).
  - unfold new_message. by apply Hstart.
  - unfold new_message. apply (contains_in_join _ _ _ (py "> **")
      (py ":**" ++ [10] ++ py "> " ++ url pdf)).
    apply list_elem_of_further, list_elem_of_fmap.
    exists pdf. split; [done | done].
  - unfold new_message. apply (contains_in_join _ _ _
      (py "> **" ++ title pdf ++ py ":**" ++ [10] ++ py "> ") []).
    apply list_elem_of_further, list_elem_of_fmap.
    exists pdf. split; [|done]. by rewrite app_nil_r, <- !app_assoc.
  - unfold modified_message. by apply Hstart.
  - unfold modified_message. apply (contains_in_join _ _ _ (py "> **")
      (py ":** **(Updated)**" ++ [10] ++ py "> " ++ url pdf)).
    apply list_elem_of_further, list_elem_of_fmap.
    exists pdf. split; [done | done].
  - unfold modified_message. apply (contains_in_join _ _ _
      (py "> **" ++ title pdf ++ py ":** **(Updated)**" ++ [10] ++ py "> ") []).
    apply list_elem_of_further, list_elem_of_fmap.
    exists pdf. split; [|done]. by rewrite app_nil_r, <- !app_assoc.
Qed.

Lemma announcements_name_every_entry_witness :
  (startswith (py "<@&" ++ str_of_int 7 ++ py ">")
              (new_message 7 [rules_2024_entry]) = true
   ∧ contains (title rules_2024_entry) (new_message 7 [rules_2024_entry]) = true
   ∧ contains (url rules_2024_entry) (new_message 7 [rules_2024_entry]) = true)
  ∧ (startswith (py "<@&" ++ str_of_int 7 ++ py ">")
                (modified_message 7 [rules_2024_entry]) = true
     ∧ contains (title rules_2024_entry)
                (modified_message 7 [rules_2024_entry]) = true
     ∧ contains (url rules_2024_entry)
                (modified_message 7 [rules_2024_entry]) = true).
Proof.
  apply (announcements_name_every_entry 7 [rules_2024_entry] rules_2024_entry).
  apply list_elem_of_here.
Defined.

(** ** Loading the cogs *)

Lemma load_cogs_spec load_extension files :
  (∀ loaded extension e,
     load_extension loaded extension = Some e → is_Exception e = true) →
  ∀ b, ∃ b',
    load_cogs load_extension files b = (Ok (), b')
    ∧ length (boot_log b')
      = (length (boot_log b) + length (filter (λ f, is_cog f = true) files))%nat
    ∧ (∃ loaded, extensions b' = extensions b ++ loaded
                 ∧ loaded `sublist_of`
                     (extension_of <$> filter (λ f, is_cog f = true) files))
    ∧ ((∀ loaded extension, load_extension loaded extension = None) →
       extensions b'
       = extensions b ++ (extension_of <$> filter (λ f, is_cog f = true) files)).
Proof.
  intros Hload. induction files as [|f files IH]; intros b.
  - exists b. split; [done|]. split; [simpl; lia|].
    split; [exists []; by rewrite app_nil_r|]. intros _. by rewrite app_nil_r.
  - cbn [load_cogs]. rewrite filter_cons. destruct (is_cog f) eqn:Hf.
    + rewrite decide_True by done.
      destruct (load_extension (extensions b) (extension_of f)) as [e|] eqn:He.
      * rewrite (Hload _ _ _ He).
        destruct (IH (Boot (boot_log b ++ [(ERROR, py "Failed to load Cog: "
                                                   ++ file_path f)])
                           (extensions b)))
          as (b' & -> & Hlog & (loaded & Hext & Hsub) & Hall).
        exists b'. split; [done|]. cbn [boot_log extensions] in *.
        rewrite length_app in Hlog. split; [simpl in *; lia|].
        split; [exists loaded; split; [done|]; by apply sublist_cons|].
        intros Hnone. by rewrite Hnone in He.
      * destruct (IH (Boot (boot_log b ++ [(INFO, py "Loaded Cog: "
                                                  ++ file_path f)])
                           (extensions b ++ [extension_of f])))
          as (b' & -> & Hlog & (loaded & Hext & Hsub) & Hall).
        exists b'. split; [done|]. cbn [boot_log extensions] in *.
        rewrite length_app in Hlog. split; [simpl in *; lia|].
        split.
        -- exists (extension_of f :: loaded).
           split; [by rewrite Hext, <- app_assoc|]. by apply sublist_skip.
        -- intros Hnone. by rewrite (Hall Hnone), <- app_assoc.
    + rewrite decide_False by done. apply IH.
Qed.

(** X19. When loading an extension fails with an [Exception] if at all,
    [setup_hook] on a listed directory returns normally and logs one line
    for every file whose name ends in [.py] and does not start with [_],
    in the order of the listing: a cog that fails to load does not keep
    the later ones from being loaded. The extensions it has loaded are
    among the names [bot.cogs.<stem>] of those files, in that order, and
    all of them when every load succeeds. *)
Theorem setup_hook_loads_every_cog COGS_DIR files load_extension b :
  (∀ loaded extension e,
     load_extension loaded extension = Some e → is_Exception e = true) →
  ∃ b',
    setup_hook COGS_DIR (Listing files) load_extension b = (Ok (), b')
    ∧ length (boot_log b')
      = (length (boot_log b) + length (filter (λ f, is_cog f = true) files))%nat
    ∧ (∃ loaded, extensions b' = extensions b ++ loaded
                 ∧ loaded `sublist_of`
                     (extension_of <$> filter (λ f, is_cog f = true) files))
    ∧ ((∀ loaded extension, load_extension loaded extension = None) →
       extensions b'
       = extensions b ++ (extension_of <$> filter (λ f, is_cog f = true) files)).
Proof. intros Hload. by apply load_cogs_spec. Qed.

Lemma setup_hook_loads_every_cog_witness :
  ∃ b',
    setup_hook (py "/bot/cogs")
      (Listing [init_py; scraper_py; notes_txt; scraper_py])
      load_once (Boot [] [])
    = (Ok (), b')
    ∧ length (boot_log b')
      = (length (boot_log (Boot [] []))
         + length (filter (λ f, is_cog f = true)
                     [init_py; scraper_py; notes_txt; scraper_py]))%nat
    ∧ (∃ loaded,
         extensions b' = extensions (Boot [] []) ++ loaded
         ∧ loaded `sublist_of`
             (extension_of <$> filter (λ f, is_cog f = true)
                                 [init_py; scraper_py; notes_txt; scraper_py]))
    ∧ ((∀ loaded extension, load_once loaded extension = None) →
       extensions b'
       = extensions (Boot [] [])
         ++ (extension_of <$> filter (λ f, is_cog f = true)
                                [init_py; scraper_py; notes_txt; scraper_py])).
Proof.
  apply (setup_hook_loads_every_cog (py "/bot/cogs")
           [init_py; scraper_py; notes_txt; scraper_py]).
  intros loaded extension e. unfold load_once.
  case_bool_decide; [|done]. by intros [= <-].
Defined.

(** The listing of the witness: the second [scraper.py] fails to load,
    and is logged as such; the other files are skipped. *)
Example setup_hook_example :
  setup_hook (py "/bot/cogs")
    (Listing [init_py; scraper_py; notes_txt; scraper_py])
    load_once (Boot [] [])
  = (Ok (),
     Boot [(INFO, py "Loaded Cog: /bot/cogs/scraper.py");
           (ERROR, py "Failed to load Cog: /bot/cogs/scraper.py")]
          [py "bot.cogs.scraper"]).
Proof. vm_compute. reflexivity. Qed.

